(** * GitLens settings migration (src/extension.ts)

    A shallow embedding of [activate] and [migrateSettings] of
    src/extension.ts, with the properties of the migration engine stated
    and proved over it.

    - Configuration values are JSON values; JavaScript's [undefined] is
      the [None] of [option value].
    - The user settings document is a finite map from dotted keys to the
      values that are explicitly set.
    - [async] functions are computations in a state-and-exception monad
      over the [World] the extension host exposes; a rejected promise is
      the [Threw] outcome. *)

From Stdlib Require Import ZArith NArith Ascii String List Bool Sorted Lia.
From stdpp Require Import base option list strings gmap fin_maps.

Set Warnings "-register-all".
Local Open Scope string_scope.
Local Open Scope list_scope.
Local Open Scope Z_scope.

(* ===================================================================== *)
(** ** JSON values and the JavaScript operations the transforms use *)
(* ===================================================================== *)

(** A value of the settings document. Numbers only matter through their
    truthiness here, so an integer payload is enough. Objects keep their
    properties in source order; a property read returns the first binding
    of the name. *)
Inductive value : Type :=
| VNull
| VBool (b : bool)
| VNum (n : Z)
| VStr (s : string)
| VArr (items : list value)
| VObj (props : list (string * value)).

(** Result of calling a JavaScript function: a value (or [undefined]), or
    an exception. *)
Inductive completion (A : Type) : Type :=
| Ok (a : A)
| Throws.
Arguments Ok {A} a.
Arguments Throws {A}.

(** [v ? a : b] *)
Definition truthy (v : value) : bool :=
  match v with
  | VNull => false
  | VBool b => b
  | VNum n => negb (n =? 0)
  | VStr s => negb (String.eqb s "")
  | VArr _ | VObj _ => true
  end.

(** [v === 'lit'] for a string literal. *)
Definition strict_eq_str (v : value) (lit : string) : bool :=
  match v with
  | VStr s => String.eqb s lit
  | _ => false
  end.

(** [s.includes(needle)] and the test [s.indexOf(needle) !== -1] on
    strings. *)
Fixpoint includes (needle s : string) : bool :=
  String.prefix needle s ||
  match s with
  | EmptyString => false
  | String _ s' => includes needle s'
  end.

(** Property read [o.name] on a value known not to be [null]: primitives
    and arrays have none of the names read by the transforms. *)
Fixpoint assoc (name : string) (props : list (string * value)) : option value :=
  match props with
  | [] => None
  | (k, v) :: rest => if String.eqb k name then Some v else assoc name rest
  end.

Definition prop (name : string) (o : value) : completion (option value) :=
  match o with
  | VNull => Throws
  | VObj props => Ok (assoc name props)
  | _ => Ok None
  end.

(** An object literal [{ k1: e1, ... }] as it reaches the settings file:
    properties whose value is [undefined] are not serialised. *)
Fixpoint object_literal (props : list (string * option value)) : list (string * value) :=
  match props with
  | [] => []
  | (k, Some v) :: rest => (k, v) :: object_literal rest
  | (_, None) :: rest => object_literal rest
  end.

(** [items.map(f)], stopping at the first exception. *)
Fixpoint array_map (f : value -> completion value) (items : list value)
  : completion (list value) :=
  match items with
  | [] => Ok []
  | x :: rest =>
      match f x with
      | Throws => Throws
      | Ok y =>
          match array_map f rest with
          | Throws => Throws
          | Ok ys => Ok (y :: ys)
          end
      end
  end.

(** [const index = v.indexOf(lit); if (index !== -1) v.splice(index, 1, by)]
    on an array: the first member strictly equal to [lit] is replaced. *)
Fixpoint replace_first (lit by_ : string) (items : list value) : list value :=
  match items with
  | [] => []
  | x :: rest =>
      if strict_eq_str x lit then VStr by_ :: rest
      else x :: replace_first lit by_ rest
  end.

(* ===================================================================== *)
(** ** Versions (./system) *)
(* ===================================================================== *)

Module Versions.

(** Modelled from the spec: the [Versions] namespace of ./system is not
    under src/. Section 3 gives the fields of a SemVer value, section 4.1
    the parser (dotted major.minor.patch, an optional pre-release after a
    dash, a ParseError on anything else) and the comparator. *)
Record Version : Type := mkVersion {
  major : N;
  minor : N;
  patch : N;
  pre : option string
}.

(** Modelled from the spec: [Versions.from(major, minor, patch, pre)],
    construction from the fields (section 3). *)
Definition from (major minor patch : N) (pre : option string) : Version :=
  mkVersion major minor patch pre.

Definition of_comparison (c : comparison) : Z :=
  match c with
  | Lt => -1
  | Eq => 0
  | Gt => 1
  end.

(** Modelled from the spec: major, then minor, then patch, numerically; on
    a tie a pre-release comes before the release, and two pre-release tags
    compare lexically. The result is -1, 0 or 1. *)
Definition compare (v1 v2 : Version) : Z :=
  match N.compare (major v1) (major v2) with
  | Lt => -1
  | Gt => 1
  | Eq =>
    match N.compare (minor v1) (minor v2) with
    | Lt => -1
    | Gt => 1
    | Eq =>
      match N.compare (patch v1) (patch v2) with
      | Lt => -1
      | Gt => 1
      | Eq =>
        match pre v1, pre v2 with
        | None, None => 0
        | Some _, None => -1
        | None, Some _ => 1
        | Some p1, Some p2 => of_comparison (String.compare p1 p2)
        end
      end
    end
  end.

(** The parser's helpers: splitting at the first occurrence of a
    separator, and reading a decimal number. *)
Fixpoint cut (sep : ascii) (s : string) : string * option string :=
  match s with
  | EmptyString => (EmptyString, None)
  | String c rest =>
      if Ascii.eqb c sep then (EmptyString, Some rest)
      else let '(h, t) := cut sep rest in (String c h, t)
  end.

Definition digit (c : ascii) : option N :=
  let n := N_of_ascii c in
  if (48 <=? n)%N && (n <=? 57)%N then Some (n - 48)%N else None.

Fixpoint digits (acc : N) (s : string) : option N :=
  match s with
  | EmptyString => Some acc
  | String c rest =>
      match digit c with
      | Some d => digits (acc * 10 + d)%N rest
      | None => None
      end
  end.

(** A non-empty run of decimal digits. *)
Definition number (s : string) : option N :=
  match s with
  | EmptyString => None
  | _ => digits 0%N s
  end.

(** Modelled from the spec: [fromString] parses [major.minor.patch] with
    an optional [-pre] suffix; [None] stands for the ParseError raised on
    unparsable input. *)
Definition fromString (version : string) : option Version :=
  let '(ver, pre) := cut "-" version in
  let '(ma, rest1) := cut "." ver in
  match rest1 with
  | None => None
  | Some rest1 =>
    let '(mi, rest2) := cut "." rest1 in
    match rest2 with
    | None => None
    | Some pa =>
      match number ma, number mi, number pa with
      | Some a, Some b, Some c => Some (from a b c pre)
      | _, _, _ => None
      end
    end
  end.

End Versions.
(* ===================================================================== *)
(** ** The extension host *)
(* ===================================================================== *)

(** What is thrown in the code modelled here. *)
Inductive exn : Type :=
| ParseError (input : string)   (* Versions.fromString on a malformed marker *)
| TypeError                     (* a transform applied to a value of the wrong shape *)
| Error (message : string).     (* GitService.initialize *)

(** The lines written to the log, by the call that writes them. *)
Inductive logEntry : Type :=
| NotActivated (version : string)
| Activated (version : string)
| FirstTimeInstall
| UpgradedFrom (previous version : string)
| LoggedError (ex : exn) (classOrMethod : string)
| RuleSkipped (sourceKey destinationKey : string).

(** A call of [configuration.migrate] or [configuration.migrateIfMissing],
    recorded as it is made. *)
Inductive invocation : Type :=
| Migrate (sourceKey destinationKey : string)
| MigrateIfMissing (sourceKey destinationKey : string).

(** What the extension reads and writes. [invocations] and [writes] are
    traces kept for the statements below: the migration calls made and the
    writes that reached the settings document, oldest first. *)
Record World : Type := mkWorld {
  settings : gmap string value;
  globalState : option string;          (* GlobalState.GitLensVersion *)
  enabledContext : option bool;         (* CommandContext.Enabled *)
  log : list logEntry;
  gitNotFoundShown : bool;              (* window.showErrorMessage *)
  invocations : list invocation;
  writes : list (string * option value)
}.

Inductive outcome (A : Type) : Type :=
| Returned (a : A) (w : World)
| Threw (ex : exn) (w : World).
Arguments Returned {A} a w.
Arguments Threw {A} ex w.

(** An [async] function body: it returns (the promise resolves) or throws
    (the promise rejects), and every [await] is a bind. *)
Definition M (A : Type) : Type := World -> outcome A.

#[global] Instance M_ret : MRet M := fun A a w => Returned a w.
#[global] Instance M_bind : MBind M := fun A B f m w =>
  match m w with
  | Returned a w' => f a w'
  | Threw ex w' => Threw ex w'
  end.

Definition throw {A : Type} (ex : exn) : M A := fun w => Threw ex w.

(** [try { body } catch (ex) { handler(ex) }] *)
Definition try_catch {A : Type} (body : M A) (handler : exn -> M A) : M A :=
  fun w =>
    match body w with
    | Returned a w' => Returned a w'
    | Threw ex w' => handler ex w'
    end.

(** [if (c) { body }] *)
Definition when_ (c : bool) (body : M unit) : M unit :=
  if c then body else mret tt.

(** Awaiting a list of calls one after the other. *)
Fixpoint sequence_ (calls : list (M unit)) : M unit :=
  match calls with
  | [] => mret tt
  | c :: rest => c;; sequence_ rest
  end.

(** Modelled from the spec: [Logger] (./logger) is not under src/; section
    6 has the log sink accept informational and error-level messages, which
    are appended here to [log]. *)
Definition Logger_log (entry : logEntry) : M unit := fun w =>
  Returned tt (mkWorld (settings w) (globalState w) (enabledContext w)
                       (log w ++ [entry]) (gitNotFoundShown w)
                       (invocations w) (writes w)).

Definition Logger_error (ex : exn) (classOrMethod : string) : M unit :=
  Logger_log (LoggedError ex classOrMethod).

(** Modelled from the spec: [setCommandContext] (./constants) is not under
    src/; section 6 has it set the host-visible enabled flag. *)
Definition setCommandContext_Enabled (b : bool) : M unit := fun w =>
  Returned tt (mkWorld (settings w) (globalState w) (Some b)
                       (log w) (gitNotFoundShown w)
                       (invocations w) (writes w)).

(** The host's [window.showErrorMessage], recorded as having been shown. *)
Definition window_showErrorMessage : M unit := fun w =>
  Returned tt (mkWorld (settings w) (globalState w) (enabledContext w)
                       (log w) true (invocations w) (writes w)).

(** The host's [context.globalState] at the key [GlobalState.GitLensVersion]:
    the persisted previous-version marker. *)
Definition globalState_get : M (option string) := fun w =>
  Returned (globalState w) w.

Definition globalState_update (version : string) : M unit := fun w =>
  Returned tt (mkWorld (settings w) (Some version) (enabledContext w)
                       (log w) (gitNotFoundShown w)
                       (invocations w) (writes w)).

(** Appending to the trace of migration calls. *)
Definition record_invocation (i : invocation) : M unit := fun w =>
  Returned tt (mkWorld (settings w) (globalState w) (enabledContext w)
                       (log w) (gitNotFoundShown w)
                       (invocations w ++ [i]) (writes w)).

(** [Versions.fromString(version)] as a call that may throw. *)
Definition Versions_fromString (version : string) : M Versions.Version :=
  match Versions.fromString version with
  | Some v => mret v
  | None => throw (ParseError version)
  end.

(* ===================================================================== *)
(** ** The configuration adapter and the migration rules (./configuration) *)
(* ===================================================================== *)

(** Modelled from the spec: [configuration.name('blame')('avatars').value]
    of ./configuration is not under src/; section 6 addresses an option by
    its dotted path, [blame.avatars] here. *)
Definition configuration_name (path : list string) : string :=
  String.concat "." path.

(** The body of a [migrationFn]. Its first argument is [configuration.get]
    on the settings as they are when the function is called, which is all a
    transform of src/extension.ts closes over. *)
Definition transform : Type :=
  (string -> option value) -> value -> completion (option value).

(** The options object of a migration call, as the calls of lines 226-229
    and 139-141 build it. *)
Record MigrateOptions : Type := mkOptions {
  fallbackValue : option value;
  migrationFn : option transform
}.

Definition no_options : MigrateOptions := mkOptions None None.

(** Modelled from the spec: the two modes of a migration rule (section 3). *)
Inductive mode : Type := Overwrite | OnlyIfDestinationUnset.

(** One call of [configuration.migrate] ([Overwrite]) or of
    [configuration.migrateIfMissing] ([OnlyIfDestinationUnset]): the rule
    it asks the engine to execute. *)
Record rule : Type := mkRule {
  ruleMode : mode;
  sourceKey : string;
  destinationKey : string;
  options : MigrateOptions
}.

Definition migrate (from to : string) (opts : MigrateOptions) : rule :=
  mkRule Overwrite from to opts.

Definition migrateIfMissing (from to : string) (opts : MigrateOptions) : rule :=
  mkRule OnlyIfDestinationUnset from to opts.

Definition invocation_of (r : rule) : invocation :=
  match ruleMode r with
  | Overwrite => Migrate (sourceKey r) (destinationKey r)
  | OnlyIfDestinationUnset => MigrateIfMissing (sourceKey r) (destinationKey r)
  end.

(** A host to run the model on in the closed examples further down: one
    registered default, and the two enum members written as strings. No
    theorem depends on this choice. *)
Definition example_defaults : string -> option value := fun key =>
  if String.eqb key "outputLevel" then Some (VStr "errors") else None.

Definition example_Debug : value := VStr "debug".
Definition example_Alternate : value := VStr "alternate".

Section Host.

(** The defaults registered for the options of the current schema
    (package.json) and the two enum members the transforms name
    ([OutputLevel.Debug], [KeyMap.Alternate] of ./configuration) are not
    under src/: everything below holds for any choice of them. *)
Variable defaults : string -> option value.
Variable OutputLevel_Debug : value.
Variable KeyMap_Alternate : value.

(** Modelled from the spec: the config store adapter of section 4.2, which
    is not under src/. [get] falls back to the default, [has] is true only
    for an explicitly set key, and a write is visible to the reads that
    follow it. Writing [undefined] removes the key, which is how the host
    unsets a setting. *)
Definition get_in (doc : gmap string value) (key : string) : option value :=
  match doc !! key with
  | Some v => Some v
  | None => defaults key
  end.

(** Modelled from the spec: the effect of [set] (section 4.2) on the
    document; [undefined] as the new value is [unset]. *)
Definition write_in (key : string) (newValue : option value)
    (doc : gmap string value) : gmap string value :=
  match newValue with
  | Some v => <[key := v]> doc
  | None => delete key doc
  end.

(** Modelled from the spec: the explicitly set value of a key, if any. *)
Definition configuration_inspect (key : string) : M (option value) := fun w =>
  Returned (settings w !! key) w.

(** Modelled from the spec: [has(path)], section 4.2. *)
Definition configuration_has (key : string) : M bool :=
  v ← configuration_inspect key;
  mret (if v is Some _ then true else false).

(** Modelled from the spec: [get(path)], section 4.2, on the settings as
    they are now. *)
Definition configuration_get : M (string -> option value) := fun w =>
  Returned (get_in (settings w)) w.

(** Modelled from the spec: [set(path, value)], section 4.2; the write is
    also appended to the trace [writes]. *)
Definition configuration_set (key : string) (newValue : option value) : M unit :=
  fun w =>
    Returned tt (mkWorld (write_in key newValue (settings w)) (globalState w)
                         (enabledContext w) (log w) (gitNotFoundShown w)
                         (invocations w) (writes w ++ [(key, newValue)])).

(** Modelled from the spec: rule execution, section 4.3; the bodies of
    [configuration.migrate] and [configuration.migrateIfMissing] are not
    under src/.
    1. In [OnlyIfDestinationUnset] mode a destination that is set is left
       alone.
    2. Without a source there is nothing to migrate, unless the rule has a
       fallback, which is then written.
    3. The source value goes through the transform, if there is one; when
       the transform throws, the fallback is used if there is one, else the
       rule is skipped with a warning.
    4. The new value is written to the destination. The source is never
       written by this function. *)
Definition executeRule (r : rule) : M unit :=
  let src := sourceKey r in
  let dst := destinationKey r in
  let write_fallback_or (otherwise : M unit) : M unit :=
    match fallbackValue (options r) with
    | Some fallback => configuration_set dst (Some fallback)
    | None => otherwise
    end in
  destinationSet ← configuration_has dst;
  match ruleMode r, destinationSet with
  | OnlyIfDestinationUnset, true => mret tt
  | _, _ =>
    source ← configuration_inspect src;
    match source with
    | None => write_fallback_or (mret tt)
    | Some sourceValue =>
      match migrationFn (options r) with
      | None => configuration_set dst (Some sourceValue)
      | Some fn =>
        get ← configuration_get;
        match fn get sourceValue with
        | Ok newValue => configuration_set dst newValue
        | Throws => write_fallback_or (Logger_log (RuleSkipped src dst))
        end
      end
    end
  end.

(** [await configuration.migrate(...)] / [await
    configuration.migrateIfMissing(...)] as migrateSettings makes it. *)
Definition call (r : rule) : M unit :=
  record_invocation (invocation_of r);;
  executeRule r.

(* --------------------------------------------------------------------- *)
(** *** The transforms of migrateSettings *)
(* --------------------------------------------------------------------- *)

(** Lines 97-106 and 183-192:
    [v => v.map(ls => ({ language: ls.language, scopes: ls.locations,
                         symbolScopes: ls.customSymbols }))].
    [map] exists on arrays only, and reading a property of [null] throws. *)
Definition scopesByLanguage : transform := fun _ v =>
  match v with
  | VArr items =>
      match array_map
              (fun ls =>
                 match prop "language" ls, prop "locations" ls,
                       prop "customSymbols" ls with
                 | Ok language, Ok locations, Ok customSymbols =>
                     Ok (VObj (object_literal
                                 [("language", language);
                                  ("scopes", locations);
                                  ("symbolScopes", customSymbols)]))
                 | _, _, _ => Throws
                 end)
              items with
      | Ok scopes => Ok (Some (VArr scopes))
      | Throws => Throws
      end
  | _ => Throws
  end.

(** Lines 119, 126, 205, 212: [v => v ? 'line' : 'annotation']. *)
Definition wholeLine : transform := fun _ v =>
  Ok (Some (VStr (if truthy v then "line" else "annotation"))).

(** Line 141: [v => v ? OutputLevel.Debug
                      : configuration.get(configuration.name('outputLevel').value)]. *)
Definition debugToOutputLevel : transform := fun get v =>
  Ok (if truthy v then Some OutputLevel_Debug
      else get (configuration_name ["outputLevel"])).

(** Line 142: [v => undefined]. *)
Definition toUndefined : transform := fun _ _ => Ok None.

(** Lines 148-154 and 159-165:
    [v => { const index = v.indexOf('overviewRuler');
            if (index !== -1) { v.splice(index, 1, 'overview'); }
            return v; }].
    On an array the first ['overviewRuler'] is replaced. A string has
    [indexOf] but no [splice]; every other value has no [indexOf]. *)
Definition overviewRulerToOverview : transform := fun _ v =>
  match v with
  | VArr items => Ok (Some (VArr (replace_first "overviewRuler" "overview" items)))
  | VStr s => if includes "overviewRuler" s then Throws else Ok (Some v)
  | _ => Throws
  end.

(** Line 228: [v => v === 'standard' ? KeyMap.Alternate : v]. *)
Definition standardToAlternate : transform := fun _ v =>
  Ok (Some (if strict_eq_str v "standard" then KeyMap_Alternate else v)).

Definition with_fn (fn : transform) : MigrateOptions := mkOptions None (Some fn).

(* --------------------------------------------------------------------- *)
(** *** The calls of migrateSettings, block by block *)
(* --------------------------------------------------------------------- *)

(** Lines 84-135, under [compare(previous, from(7, 5, 10)) !== 1]. *)
Definition batch_7_5_10 : list rule := [
  migrate "annotations.file.gutter.gravatars" (configuration_name ["blame"; "avatars"]) no_options;
  migrate "annotations.file.gutter.compact" (configuration_name ["blame"; "compact"]) no_options;
  migrate "annotations.file.gutter.dateFormat" (configuration_name ["blame"; "dateFormat"]) no_options;
  migrate "annotations.file.gutter.format" (configuration_name ["blame"; "format"]) no_options;
  migrate "annotations.file.gutter.heatmap.enabled" (configuration_name ["blame"; "heatmap"; "enabled"]) no_options;
  migrate "annotations.file.gutter.heatmap.location" (configuration_name ["blame"; "heatmap"; "location"]) no_options;
  migrate "annotations.file.gutter.lineHighlight.enabled" (configuration_name ["blame"; "highlight"; "enabled"]) no_options;
  migrate "annotations.file.gutter.lineHighlight.locations" (configuration_name ["blame"; "highlight"; "locations"]) no_options;
  migrate "annotations.file.gutter.separateLines" (configuration_name ["blame"; "separateLines"]) no_options;

  migrate "codeLens.locations" (configuration_name ["codeLens"; "scopes"]) no_options;
  migrate "codeLens.perLanguageLocations" (configuration_name ["codeLens"; "scopesByLanguage"])
          (with_fn scopesByLanguage);
  migrate "codeLens.customLocationSymbols" (configuration_name ["codeLens"; "symbolScopes"]) no_options;

  migrate "annotations.line.trailing.dateFormat" (configuration_name ["currentLine"; "dateFormat"]) no_options;
  migrate "blame.line.enabled" (configuration_name ["currentLine"; "enabled"]) no_options;
  migrate "annotations.line.trailing.format" (configuration_name ["currentLine"; "format"]) no_options;

  migrate "annotations.file.gutter.hover.changes" (configuration_name ["hovers"; "annotations"; "changes"]) no_options;
  migrate "annotations.file.gutter.hover.details" (configuration_name ["hovers"; "annotations"; "details"]) no_options;
  migrate "annotations.file.gutter.hover.details" (configuration_name ["hovers"; "annotations"; "enabled"]) no_options;
  migrate "annotations.file.gutter.hover.wholeLine" (configuration_name ["hovers"; "annotations"; "over"])
          (with_fn wholeLine);

  migrate "annotations.line.trailing.hover.changes" (configuration_name ["hovers"; "currentLine"; "changes"]) no_options;
  migrate "annotations.line.trailing.hover.details" (configuration_name ["hovers"; "currentLine"; "details"]) no_options;
  migrate "blame.line.enabled" (configuration_name ["hovers"; "currentLine"; "enabled"]) no_options;
  migrate "annotations.line.trailing.hover.wholeLine" (configuration_name ["hovers"; "currentLine"; "over"])
          (with_fn wholeLine);

  migrate "gitExplorer.gravatars" (configuration_name ["explorers"; "avatars"]) no_options;
  migrate "gitExplorer.commitFileFormat" (configuration_name ["explorers"; "commitFileFormat"]) no_options;
  migrate "gitExplorer.commitFormat" (configuration_name ["explorers"; "commitFormat"]) no_options;
  migrate "gitExplorer.stashFileFormat" (configuration_name ["explorers"; "stashFileFormat"]) no_options;
  migrate "gitExplorer.stashFormat" (configuration_name ["explorers"; "stashFormat"]) no_options;
  migrate "gitExplorer.statusFileFormat" (configuration_name ["explorers"; "statusFileFormat"]) no_options;

  migrate "recentChanges.file.lineHighlight.locations"
          (configuration_name ["recentChanges"; "highlight"; "locations"]) no_options
].

(** Lines 139-142, under [compare(previous, from(8, 0, 0, 'beta2')) !== 1]. *)
Definition batch_8_0_0_beta2 : list rule := [
  migrate "debug" (configuration_name ["outputLevel"]) (with_fn debugToOutputLevel);
  migrate "debug" (configuration_name ["debug"]) (with_fn toUndefined)
].

(** Lines 146-166, under [compare(previous, from(8, 0, 0, 'rc')) !== 1]. *)
Definition batch_8_0_0_rc : list rule := [
  (let section := configuration_name ["blame"; "highlight"; "locations"] in
   migrate section section (with_fn overviewRulerToOverview));
  (let section := configuration_name ["recentChanges"; "highlight"; "locations"] in
   migrate section section (with_fn overviewRulerToOverview))
].

(** Lines 170-221, under [compare(previous, from(8, 0, 0)) !== 1]. *)
Definition batch_8_0_0 : list rule := [
  migrateIfMissing "annotations.file.gutter.gravatars" (configuration_name ["blame"; "avatars"]) no_options;
  migrateIfMissing "annotations.file.gutter.compact" (configuration_name ["blame"; "compact"]) no_options;
  migrateIfMissing "annotations.file.gutter.dateFormat" (configuration_name ["blame"; "dateFormat"]) no_options;
  migrateIfMissing "annotations.file.gutter.format" (configuration_name ["blame"; "format"]) no_options;
  migrateIfMissing "annotations.file.gutter.heatmap.enabled" (configuration_name ["blame"; "heatmap"; "enabled"]) no_options;
  migrateIfMissing "annotations.file.gutter.heatmap.location" (configuration_name ["blame"; "heatmap"; "location"]) no_options;
  migrateIfMissing "annotations.file.gutter.lineHighlight.enabled" (configuration_name ["blame"; "highlight"; "enabled"]) no_options;
  migrateIfMissing "annotations.file.gutter.lineHighlight.locations" (configuration_name ["blame"; "highlight"; "locations"]) no_options;
  migrateIfMissing "annotations.file.gutter.separateLines" (configuration_name ["blame"; "separateLines"]) no_options;

  migrateIfMissing "codeLens.locations" (configuration_name ["codeLens"; "scopes"]) no_options;
  migrateIfMissing "codeLens.perLanguageLocations" (configuration_name ["codeLens"; "scopesByLanguage"])
                   (with_fn scopesByLanguage);
  migrateIfMissing "codeLens.customLocationSymbols" (configuration_name ["codeLens"; "symbolScopes"]) no_options;

  migrateIfMissing "annotations.line.trailing.dateFormat" (configuration_name ["currentLine"; "dateFormat"]) no_options;
  migrateIfMissing "blame.line.enabled" (configuration_name ["currentLine"; "enabled"]) no_options;
  migrateIfMissing "annotations.line.trailing.format" (configuration_name ["currentLine"; "format"]) no_options;

  migrateIfMissing "annotations.file.gutter.hover.changes" (configuration_name ["hovers"; "annotations"; "changes"]) no_options;
  migrateIfMissing "annotations.file.gutter.hover.details" (configuration_name ["hovers"; "annotations"; "details"]) no_options;
  migrateIfMissing "annotations.file.gutter.hover.details" (configuration_name ["hovers"; "annotations"; "enabled"]) no_options;
  migrateIfMissing "annotations.file.gutter.hover.wholeLine" (configuration_name ["hovers"; "annotations"; "over"])
                   (with_fn wholeLine);

  migrateIfMissing "annotations.line.trailing.hover.changes" (configuration_name ["hovers"; "currentLine"; "changes"]) no_options;
  migrateIfMissing "annotations.line.trailing.hover.details" (configuration_name ["hovers"; "currentLine"; "details"]) no_options;
  migrateIfMissing "blame.line.enabled" (configuration_name ["hovers"; "currentLine"; "enabled"]) no_options;
  migrateIfMissing "annotations.line.trailing.hover.wholeLine" (configuration_name ["hovers"; "currentLine"; "over"])
                   (with_fn wholeLine);

  migrateIfMissing "gitExplorer.gravatars" (configuration_name ["explorers"; "avatars"]) no_options;
  migrateIfMissing "gitExplorer.commitFileFormat" (configuration_name ["explorers"; "commitFileFormat"]) no_options;
  migrateIfMissing "gitExplorer.commitFormat" (configuration_name ["explorers"; "commitFormat"]) no_options;
  migrateIfMissing "gitExplorer.stashFileFormat" (configuration_name ["explorers"; "stashFileFormat"]) no_options;
  migrateIfMissing "gitExplorer.stashFormat" (configuration_name ["explorers"; "stashFormat"]) no_options;
  migrateIfMissing "gitExplorer.statusFileFormat" (configuration_name ["explorers"; "statusFileFormat"]) no_options;

  migrateIfMissing "recentChanges.file.lineHighlight.locations"
                   (configuration_name ["recentChanges"; "highlight"; "locations"]) no_options
].

(** Lines 225-229, under [compare(previous, from(8, 0, 2)) !== 1]. *)
Definition batch_8_0_2 : list rule := [
  (let section := configuration_name ["keymap"] in
   migrate section section
           (mkOptions (Some KeyMap_Alternate) (Some standardToAlternate)))
].

(** The five guarded blocks as data: threshold and calls, in source order. *)
Definition registry : list (Versions.Version * list rule) := [
  (Versions.from 7 5 10 None, batch_7_5_10);
  (Versions.from 8 0 0 (Some "beta2"), batch_8_0_0_beta2);
  (Versions.from 8 0 0 (Some "rc"), batch_8_0_0_rc);
  (Versions.from 8 0 0 None, batch_8_0_0);
  (Versions.from 8 0 2 None, batch_8_0_2)
].

(* --------------------------------------------------------------------- *)
(** *** migrateSettings and activate *)
(* --------------------------------------------------------------------- *)

(** [Versions.compare(previous, threshold) !== 1] *)
Definition not_above (previous threshold : Versions.Version) : bool :=
  negb (Versions.compare previous threshold =? 1).

(** Lines 77-235. The marker is parsed before the [try] block is entered;
    the [catch] logs and swallows whatever a call inside the block throws. *)
Definition migrateSettings (previousVersion : option string) : M unit :=
  match previousVersion with
  | None => mret tt
  | Some version =>
    previous ← Versions_fromString version;
    try_catch
      (when_ (not_above previous (Versions.from 7 5 10 None))
             (sequence_ (call <$> batch_7_5_10));;
       when_ (not_above previous (Versions.from 8 0 0 (Some "beta2")))
             (sequence_ (call <$> batch_8_0_0_beta2));;
       when_ (not_above previous (Versions.from 8 0 0 (Some "rc")))
             (sequence_ (call <$> batch_8_0_0_rc));;
       when_ (not_above previous (Versions.from 8 0 0 None))
             (sequence_ (call <$> batch_8_0_0));;
       when_ (not_above previous (Versions.from 8 0 2 None))
             (sequence_ (call <$> batch_8_0_2)))
      (fun ex => Logger_error ex "migrateSettings")
  end.

(** What one activation is given by the host: the running version, the
    [git.enabled] setting, and whether [GitService.initialize] succeeds
    ([None]) or throws an error with the given message. *)
Record Activation : Type := mkActivation {
  gitlensVersion : string;
  gitEnabled : bool;
  gitInitialize : option string
}.

Definition GitService_initialize (a : Activation) : M unit :=
  match gitInitialize a with
  | None => mret tt
  | Some message => throw (Error message)
  end.

(** Lines 244-274, as far as the state kept here goes: the two log lines.
    The call at line 63 is not awaited, so nothing it throws reaches
    [activate]; the welcome page it may open is user interface. *)
Definition showWelcomePage (version : string) (previousVersion : option string)
  : M unit :=
  match previousVersion with
  | None => Logger_log FirstTimeInstall
  | Some previous =>
      when_ (negb (String.eqb previous version))
            (Logger_log (UpgradedFrom previous version))
  end.

(** Lines 14-72. [Logger.configure], [Configuration.configure],
    [Container.initialize], [configureCommands] and
    [notifyOnUnsupportedGitVersion] are calls into the host that touch none
    of the state kept here. *)
Definition activate (a : Activation) : M unit :=
  if negb (gitEnabled a) then
    Logger_log (NotActivated (gitlensVersion a));;
    setCommandContext_Enabled false
  else
    previousVersion ← globalState_get;
    migrateSettings previousVersion;;
    initialized ← try_catch (GitService_initialize a;; mret None)
                            (fun ex => mret (Some ex));
    match initialized with
    | Some ex =>
        Logger_error ex "activate";;
        (match ex with
         | Error message =>
             when_ (includes "Unable to find git" message) window_showErrorMessage
         | _ => mret tt
         end);;
        setCommandContext_Enabled false
    | None =>
        showWelcomePage (gitlensVersion a) previousVersion;;
        globalState_update (gitlensVersion a);;
        Logger_log (Activated (gitlensVersion a))
    end.

(* --------------------------------------------------------------------- *)
(** *** showWelcomePage in full, and migrateSettings over any callee *)
(* --------------------------------------------------------------------- *)

(** [s.split(sep)] for a one-character separator: never empty. *)
Fixpoint split_on (sep : ascii) (s : string) : list string :=
  match s with
  | EmptyString => [EmptyString]
  | String c rest =>
      if Ascii.eqb c sep then EmptyString :: split_on sep rest
      else
        match split_on sep rest with
        | [] => [String c EmptyString]
        | h :: t => String c h :: t
        end
  end.

(** [a === b] and [a < b] on the two things a destructured [split] gives: a
    string, or [undefined] ([None]). Two strings compare by code unit; with
    an [undefined] operand [<] is false. *)
Definition js_strict_eq (a b : option string) : bool :=
  match a, b with
  | None, None => true
  | Some x, Some y => String.eqb x y
  | _, _ => false
  end.

Definition js_less (a b : option string) : bool :=
  match a, b with
  | Some x, Some y => String.ltb x y
  | _, _ => false
  end.

(** Lines 267-271: [const [major, minor] = version.split('.')], the same
    for the previous version, and the two tests that end without a
    notification: same major and minor, or a downgrade. *)
Definition same_or_downgrade (version previousVersion : string) : bool :=
  let parts := split_on "." version in
  let prevParts := split_on "." previousVersion in
  let major := parts !! 0%nat in
  let minor := parts !! 1%nat in
  let prevMajor := prevParts !! 0%nat in
  let prevMinor := prevParts !! 1%nat in
  (js_strict_eq major prevMajor && js_strict_eq minor prevMinor) ||
  (js_less major prevMajor ||
   (js_strict_eq major prevMajor && js_less minor prevMinor)).

(** Lines 244-274 in full. The flag is [Container.config.
    showWhatsNewAfterUpgrades]; the result tells whether
    [commands.executeCommand(Commands.ShowWelcomePage)] is reached. *)
Definition showWelcomePage_full (showWhatsNewAfterUpgrades : bool)
    (version : string) (previousVersion : option string) : M bool :=
  match previousVersion with
  | None =>
      Logger_log FirstTimeInstall;;
      mret showWhatsNewAfterUpgrades
  | Some previous =>
      from_8_0_0 ←
        (if negb (String.eqb previous version) then
           Logger_log (UpgradedFrom previous version);;
           v ← Versions_fromString previous;
           mret (Versions.compare v (Versions.from 8 0 0 None) =? 0)
         else mret false);
      if from_8_0_0 : bool then mret true
      else if negb showWhatsNewAfterUpgrades then mret false
      else mret (negb (same_or_downgrade version previous))
  end.

(** Lines 77-235 with the awaited callee left open: the body of
    migrateSettings for any implementation [await_call] of a migration
    call. *)
Definition migrateSettings_with (await_call : rule -> M unit)
    (previousVersion : option string) : M unit :=
  match previousVersion with
  | None => mret tt
  | Some version =>
    previous ← Versions_fromString version;
    try_catch
      (when_ (not_above previous (Versions.from 7 5 10 None))
             (sequence_ (await_call <$> batch_7_5_10));;
       when_ (not_above previous (Versions.from 8 0 0 (Some "beta2")))
             (sequence_ (await_call <$> batch_8_0_0_beta2));;
       when_ (not_above previous (Versions.from 8 0 0 (Some "rc")))
             (sequence_ (await_call <$> batch_8_0_0_rc));;
       when_ (not_above previous (Versions.from 8 0 0 None))
             (sequence_ (await_call <$> batch_8_0_0));;
       when_ (not_above previous (Versions.from 8 0 2 None))
             (sequence_ (await_call <$> batch_8_0_2)))
      (fun ex => Logger_error ex "migrateSettings")
  end.

(** How many members of an array are strictly equal to a string. *)
Fixpoint count_members (lit : string) (items : list value) : nat :=
  match items with
  | [] => 0%nat
  | x :: rest =>
      (if strict_eq_str x lit then 1 else 0)%nat + count_members lit rest
  end.

(** The names of the properties of an object. *)
Definition property_names (v : value) : list string :=
  match v with
  | VObj props => fst <$> props
  | _ => []
  end.


(* ===================================================================== *)
(** ** What a call does to the settings document *)
(* ===================================================================== *)

(** The write a rule performs on a document, if any: [Some newValue] when
    [executeRule] reaches a [configuration_set], [None] when it skips. *)
Definition rule_write (r : rule) (doc : gmap string value)
  : option (option value) :=
  match ruleMode r, doc !! destinationKey r with
  | OnlyIfDestinationUnset, Some _ => None
  | _, _ =>
    match doc !! sourceKey r with
    | None => Some <$> fallbackValue (options r)
    | Some sourceValue =>
      match migrationFn (options r) with
      | None => Some (Some sourceValue)
      | Some fn =>
        match fn (get_in doc) sourceValue with
        | Ok newValue => Some newValue
        | Throws => Some <$> fallbackValue (options r)
        end
      end
    end
  end.

Definition apply_rule (r : rule) (doc : gmap string value) : gmap string value :=
  match rule_write r doc with
  | Some newValue => write_in (destinationKey r) newValue doc
  | None => doc
  end.

Definition apply_rules (rules : list rule) (doc : gmap string value)
  : gmap string value :=
  fold_left (fun d r => apply_rule r d) rules doc.


(** The world a call leaves behind, and the world after a list of calls. *)
Definition world_of {A : Type} (o : outcome A) : World :=
  match o with
  | Returned _ w => w
  | Threw _ w => w
  end.

Definition after_call (r : rule) (w : World) : World := world_of (call r w).

Definition invoked (r : rule) (w : World) : World :=
  mkWorld (settings w) (globalState w) (enabledContext w) (log w)
          (gitNotFoundShown w) (invocations w ++ [invocation_of r]) (writes w).

Definition after_calls (rules : list rule) (w : World) : World :=
  fold_left (fun w r => after_call r w) rules w.

(** The rules of the blocks whose guard lets a previous version in, in the
    order migrateSettings reaches them. *)
Definition applicable (previous : Versions.Version) : list rule :=
  flat_map (fun b => if not_above previous (fst b) then snd b else []) registry.

Definition all_rules : list rule := flat_map snd registry.

(** [activate] from line 35 on, once the settings are migrated. *)
Definition activate_rest (a : Activation) (previousVersion : option string)
  : M unit :=
  initialized ← try_catch (GitService_initialize a;; mret None)
                          (fun ex => mret (Some ex));
  match initialized with
  | Some ex =>
      Logger_error ex "activate";;
      (match ex with
       | Error message =>
           when_ (includes "Unable to find git" message) window_showErrorMessage
       | _ => mret tt
       end);;
      setCommandContext_Enabled false
  | None =>
      showWelcomePage (gitlensVersion a) previousVersion;;
      globalState_update (gitlensVersion a);;
      Logger_log (Activated (gitlensVersion a))
  end.

(** The marker is absent, or a version string that parses. *)
Definition marker_readable (w : World) : Prop :=
  match globalState w with
  | None => True
  | Some version => is_Some (Versions.fromString version)
  end.

(** The rules migrateSettings runs for a marker that does not make it
    throw. *)
Definition rules_for (marker : option string) : list rule :=
  match marker with
  | None => []
  | Some version =>
      match Versions.fromString version with
      | Some previous => applicable previous
      | None => []
      end
  end.

(** The part of the world that only [activate] touches. *)
Definition same_host_state (w w' : World) : Prop :=
  globalState w' = globalState w /\
  enabledContext w' = enabledContext w /\
  gitNotFoundShown w' = gitNotFoundShown w.


(** No rule of the list writes to [k]. *)
Definition untouched_by (rules : list rule) (k : string) : bool :=
  forallb (fun r => negb (String.eqb (destinationKey r) k)) rules.


(* --------------------------------------------------------------------- *)
(** *** A rule as a function of the two keys it looks at *)
(* --------------------------------------------------------------------- *)

(** [configuration.get] as a transform sees it when the destination holds
    [od]: the transforms of migrateSettings read no other key. *)
Definition get_at (dst : string) (od : option value) : string -> option value :=
  fun key =>
    if String.eqb key dst then
      match od with
      | Some v => Some v
      | None => defaults key
      end
    else defaults key.

(** [rule_write] from the value of the source key and of the destination
    key alone. *)
Definition rule_write_on (r : rule) (os od : option value)
  : option (option value) :=
  match ruleMode r, od with
  | OnlyIfDestinationUnset, Some _ => None
  | _, _ =>
    match os with
    | None => Some <$> fallbackValue (options r)
    | Some sourceValue =>
      match migrationFn (options r) with
      | None => Some (Some sourceValue)
      | Some fn =>
        match fn (get_at (destinationKey r) od) sourceValue with
        | Ok newValue => Some newValue
        | Throws => Some <$> fallbackValue (options r)
        end
      end
    end
  end.

Definition local (r : rule) : Prop :=
  forall doc,
    rule_write r doc =
    rule_write_on r (doc !! sourceKey r) (doc !! destinationKey r).

(** What a rule does to the value [o] held by key [k], the other keys
    being read from [env]. *)
Definition key_step (env : string -> option value) (k : string)
    (o : option value) (r : rule) : option value :=
  if String.eqb (destinationKey r) k then
    match rule_write_on r
            (if String.eqb (sourceKey r) k then o else env (sourceKey r)) o with
    | Some o' => o'
    | None => o
    end
  else o.

Definition key_fold (rules : list rule) (env : string -> option value)
    (k : string) (x : option value) : option value :=
  fold_left (key_step env k) rules x.

(** No rule reads a source that an earlier rule of the list (or a key in
    [seen]) has written, unless it rewrites that key in place. *)
Fixpoint staged (seen : list string) (rules : list rule) : bool :=
  match rules with
  | [] => true
  | r :: rest =>
      (String.eqb (sourceKey r) (destinationKey r) ||
       negb (existsb (String.eqb (sourceKey r)) seen)) &&
      staged (destinationKey r :: seen) rest
  end.

(** The calls of migrateSettings when the five guards evaluate to the
    given booleans. *)
Definition guarded (b1 b2 b3 b4 b5 : bool) : list rule :=
  (if b1 then batch_7_5_10 else []) ++
  (if b2 then batch_8_0_0_beta2 else []) ++
  (if b3 then batch_8_0_0_rc else []) ++
  (if b4 then batch_8_0_0 else []) ++
  (if b5 then batch_8_0_2 else []).

(** Every key some rule writes to. *)
Definition destinations : list string := destinationKey <$> all_rules.

(** The 8.0.0-rc block runs for this marker. *)
Definition renames (marker : option string) : bool :=
  match marker with
  | None => false
  | Some version =>
      match Versions.fromString version with
      | Some previous => not_above previous (Versions.from 8 0 0 (Some "rc"))
      | None => false
      end
  end.

(** When the 8.0.0-rc block runs for the marker, its rename leaves the two
    highlight-locations options of the document as they are (it finds no
    ['overviewRuler'] to replace, or throws). *)
Definition rename_settled (marker : option string) (doc : gmap string value)
  : Prop :=
  renames marker = true ->
  forall key v,
    key = configuration_name ["blame"; "highlight"; "locations"] \/
    key = configuration_name ["recentChanges"; "highlight"; "locations"] ->
    doc !! key = Some v ->
    overviewRulerToOverview (get_in doc) v = Throws \/
    overviewRulerToOverview (get_in doc) v = Ok (Some v).

(** [key_fold] over one block, and over a block behind its guard. *)
Definition batch_fold (rules : list rule) (env : string -> option value)
    (k : string) (x : option value) : option value :=
  fold_left (key_step env k) rules x.

Definition when_fold (c : bool) (rules : list rule)
    (env : string -> option value) (k : string) (x : option value)
  : option value :=
  if c then batch_fold rules env k x else x.

(** A rule reads a key no rule writes, or rewrites its key in place; the
    one exception is the rule that fills [outputLevel] from [debug]. *)
Definition reads_untouched (r : rule) : bool :=
  String.eqb (sourceKey r) (destinationKey r) ||
  negb (existsb (String.eqb (sourceKey r)) destinations) ||
  String.eqb (destinationKey r) "outputLevel".

(* --------------------------------------------------------------------- *)
(** *** Calls return, and what they leave behind *)
(* --------------------------------------------------------------------- *)

Lemma bind_run {A B : Type} (m : M A) (f : A -> M B) (w : World) :
  (m ≫= f) w =
  match m w with
  | Returned a w' => f a w'
  | Threw ex w' => Threw ex w'
  end.
Proof. reflexivity. Qed.

Lemma try_catch_returned {A : Type} (body : M A) handler w a w' :
  body w = Returned a w' -> try_catch body handler w = Returned a w'.
Proof. intros H. unfold try_catch. now rewrite H. Qed.

Lemma try_catch_threw {A : Type} (body : M A) handler w ex w' :
  body w = Threw ex w' -> try_catch body handler w = handler ex w'.
Proof. intros H. unfold try_catch. now rewrite H. Qed.

(** The blanket [catch] of migrateSettings on its own: when an awaited
    call throws, the calls after it are not made. *)
Lemma sequence_stops_at_throw (c : M unit) (rest : list (M unit)) w ex w' :
  c w = Threw ex w' -> sequence_ (c :: rest) w = Threw ex w'.
Proof. intros H. cbn [sequence_]. rewrite bind_run. now rewrite H. Qed.

Lemma executeRule_returns r w :
  executeRule r w = Returned tt (world_of (executeRule r w)).
Proof.
  unfold executeRule, configuration_has, configuration_inspect,
    configuration_get, configuration_set, Logger_log.
  rewrite !bind_run.
  destruct (settings w !! destinationKey r) as [d|];
    destruct (ruleMode r); cbn;
    try reflexivity;
    rewrite ?bind_run;
    destruct (settings w !! sourceKey r) as [v|]; cbn;
    destruct (fallbackValue (options r)); try reflexivity;
    destruct (migrationFn (options r)) as [fn|]; try reflexivity;
    rewrite ?bind_run; cbn;
    destruct (fn _ v); reflexivity.
Qed.

Lemma call_unfold r w : call r w = executeRule r (invoked r w).
Proof. reflexivity. Qed.

Lemma call_returns r w : call r w = Returned tt (after_call r w).
Proof.
  unfold after_call. rewrite call_unfold. apply executeRule_returns.
Qed.

Lemma sequence_calls rules w :
  sequence_ (call <$> rules) w = Returned tt (after_calls rules w).
Proof.
  revert w. induction rules as [|r rules IH]; intros w; [reflexivity|].
  rewrite fmap_cons. cbn [sequence_ after_calls fold_left].
  rewrite bind_run, call_returns. apply IH.
Qed.

Lemma when_calls (c : bool) rules w :
  when_ c (sequence_ (call <$> rules)) w =
  Returned tt (after_calls (if c then rules else []) w).
Proof. destruct c; [apply sequence_calls | reflexivity]. Qed.

Lemma after_calls_app l1 l2 w :
  after_calls (l1 ++ l2) w = after_calls l2 (after_calls l1 w).
Proof. apply fold_left_app. Qed.


Lemma settings_after_rule r w :
  settings (world_of (executeRule r w)) = apply_rule r (settings w).
Proof.
  unfold executeRule, apply_rule, rule_write, configuration_has,
    configuration_inspect, configuration_get, configuration_set, Logger_log.
  rewrite !bind_run.
  destruct (settings w !! destinationKey r) as [d|];
    destruct (ruleMode r); cbn;
    try reflexivity;
    rewrite ?bind_run;
    destruct (settings w !! sourceKey r) as [v|]; cbn;
    destruct (fallbackValue (options r)); try reflexivity;
    destruct (migrationFn (options r)) as [fn|]; try reflexivity;
    rewrite ?bind_run; cbn;
    destruct (fn _ v); reflexivity.
Qed.

Lemma settings_after_call r w :
  settings (after_call r w) = apply_rule r (settings w).
Proof.
  unfold after_call. rewrite call_unfold.
  apply (settings_after_rule r (invoked r w)).
Qed.

Lemma settings_after_calls rules w :
  settings (after_calls rules w) = apply_rules rules (settings w).
Proof.
  revert w. induction rules as [|r rules IH]; intros w; [reflexivity|].
  cbn [after_calls apply_rules fold_left].
  change (settings (after_calls rules (after_call r w)) =
          apply_rules rules (apply_rule r (settings w))).
  now rewrite IH, settings_after_call.
Qed.

Lemma host_state_after_rule r w :
  same_host_state w (world_of (executeRule r w)).
Proof.
  unfold executeRule, same_host_state, configuration_has,
    configuration_inspect, configuration_get, configuration_set, Logger_log.
  rewrite !bind_run.
  destruct (settings w !! destinationKey r) as [d|];
    destruct (ruleMode r); cbn;
    try (repeat split; reflexivity);
    rewrite ?bind_run;
    destruct (settings w !! sourceKey r) as [v|]; cbn;
    destruct (fallbackValue (options r)); try (repeat split; reflexivity);
    destruct (migrationFn (options r)) as [fn|]; try (repeat split; reflexivity);
    rewrite ?bind_run; cbn;
    destruct (fn _ v); repeat split; reflexivity.
Qed.

Lemma host_state_after_call r w : same_host_state w (after_call r w).
Proof.
  unfold after_call. rewrite call_unfold.
  apply (host_state_after_rule r (invoked r w)).
Qed.

Lemma host_state_after_calls rules w : same_host_state w (after_calls rules w).
Proof.
  revert w. induction rules as [|r rules IH]; intros w.
  - repeat split.
  - cbn [after_calls fold_left].
    destruct (IH (after_call r w)) as (H1 & H2 & H3).
    destruct (host_state_after_call r w) as (G1 & G2 & G3).
    unfold after_calls in *.
    repeat split; congruence.
Qed.

Lemma invocations_after_rule r w :
  invocations (world_of (executeRule r w)) = invocations w.
Proof.
  unfold executeRule, configuration_has,
    configuration_inspect, configuration_get, configuration_set, Logger_log.
  rewrite !bind_run.
  destruct (settings w !! destinationKey r) as [d|];
    destruct (ruleMode r); cbn;
    try reflexivity;
    rewrite ?bind_run;
    destruct (settings w !! sourceKey r) as [v|]; cbn;
    destruct (fallbackValue (options r)); try reflexivity;
    destruct (migrationFn (options r)) as [fn|]; try reflexivity;
    rewrite ?bind_run; cbn;
    destruct (fn _ v); reflexivity.
Qed.

Lemma invocations_after_call r w :
  invocations (after_call r w) = invocations w ++ [invocation_of r].
Proof.
  unfold after_call. rewrite call_unfold.
  apply (invocations_after_rule r (invoked r w)).
Qed.

Lemma invocations_after_calls rules w :
  invocations (after_calls rules w) = invocations w ++ (invocation_of <$> rules).
Proof.
  revert w. induction rules as [|r rules IH]; intros w.
  - cbn. now rewrite app_nil_r.
  - cbn [after_calls fold_left].
    change (invocations (after_calls rules (after_call r w)) =
            invocations w ++ (invocation_of <$> r :: rules)).
    rewrite IH, invocations_after_call, fmap_cons, <- app_assoc.
    reflexivity.
Qed.

(** With a marker that parses, migrateSettings returns, and the world it
    returns is the one the applicable calls leave behind, made in order. *)
Lemma migrateSettings_parsed version previous w :
  Versions.fromString version = Some previous ->
  migrateSettings (Some version) w =
  Returned tt (after_calls (applicable previous) w).
Proof.
  intros Hparse. unfold migrateSettings, Versions_fromString.
  rewrite Hparse, bind_run. cbn [mret M_ret].
  apply try_catch_returned.
  repeat (rewrite bind_run, when_calls; cbv beta iota).
  rewrite when_calls.
  unfold applicable, registry. cbn [flat_map fst snd].
  rewrite app_nil_r, !after_calls_app.
  reflexivity.
Qed.

Lemma migrateSettings_unparsed version w :
  Versions.fromString version = None ->
  migrateSettings (Some version) w = Threw (ParseError version) w.
Proof.
  intros Hparse. unfold migrateSettings, Versions_fromString.
  now rewrite Hparse.
Qed.

Lemma migrateSettings_first_install w :
  migrateSettings None w = Returned tt w.
Proof. reflexivity. Qed.

(** The [catch] of lines 232-234 on its own: when an awaited call of the
    block throws, the exception is logged, the calls after it are not
    made, and the block returns. *)
Lemma blanket_catch_logs_and_returns (c : M unit) (rest : list (M unit))
    w ex w' :
  c w = Threw ex w' ->
  try_catch (sequence_ (c :: rest))
            (fun e => Logger_error e "migrateSettings") w =
  Logger_error ex "migrateSettings" w'.
Proof.
  intros H.
  rewrite (try_catch_threw _ _ w ex w'); [reflexivity|].
  now apply sequence_stops_at_throw.
Qed.

Lemma migrateSettings_readable w :
  marker_readable w ->
  migrateSettings (globalState w) w =
  Returned tt (after_calls (rules_for (globalState w)) w).
Proof.
  unfold marker_readable, rules_for.
  destruct (globalState w) as [version|]; [|reflexivity].
  intros [previous Hp]. rewrite Hp. now apply migrateSettings_parsed.
Qed.

(* --------------------------------------------------------------------- *)
(** *** The comparator and the guards *)
(* --------------------------------------------------------------------- *)

Lemma of_comparison_range c :
  Versions.of_comparison c = -1 \/ Versions.of_comparison c = 0 \/
  Versions.of_comparison c = 1.
Proof. destruct c; cbn; auto. Qed.

Lemma compare_range v1 v2 :
  Versions.compare v1 v2 = -1 \/ Versions.compare v1 v2 = 0 \/
  Versions.compare v1 v2 = 1.
Proof.
  unfold Versions.compare.
  destruct (N.compare _ _); auto.
  destruct (N.compare _ _); auto.
  destruct (N.compare _ _); auto.
  destruct (Versions.pre v1), (Versions.pre v2); auto.
  apply of_comparison_range.
Qed.

(** The guard [compare(previous, threshold) !== 1] lets in exactly the
    versions at or below the threshold. *)
Lemma not_above_le previous threshold :
  not_above previous threshold = true <->
  Versions.compare previous threshold <= 0.
Proof.
  unfold not_above.
  destruct (compare_range previous threshold) as [H|[H|H]]; rewrite H;
    cbn; split; intros; try lia; try reflexivity; discriminate.
Qed.

Lemma not_above_decide previous threshold (rules : list rule) :
  (if not_above previous threshold then rules else []) =
  (if decide (Versions.compare previous threshold <= 0) then rules else []).
Proof.
  destruct (decide _) as [H|H].
  - apply not_above_le in H. now rewrite H.
  - destruct (not_above previous threshold) eqn:E; [|reflexivity].
    apply not_above_le in E. contradiction.
Qed.

Lemma fmap_if_decide (P : Prop) `{Decision P} (rules : list rule) :
  invocation_of <$> (if decide P then rules else []) =
  if decide P then invocation_of <$> rules else [].
Proof. now destruct (decide P). Qed.

(* --------------------------------------------------------------------- *)
(** *** Keys a rule leaves alone *)
(* --------------------------------------------------------------------- *)

Lemma lookup_write_in key newValue doc k :
  write_in key newValue doc !! k =
  if decide (key = k) then newValue else doc !! k.
Proof.
  unfold write_in. destruct newValue.
  - apply lookup_insert.
  - rewrite lookup_delete. now destruct (decide _).
Qed.

Lemma apply_rule_lookup_ne r doc k :
  destinationKey r <> k -> apply_rule r doc !! k = doc !! k.
Proof.
  intros Hne. unfold apply_rule.
  destruct (rule_write r doc); [|reflexivity].
  rewrite lookup_write_in. now destruct (decide _).
Qed.

Lemma apply_rules_untouched rules doc k :
  untouched_by rules k = true -> apply_rules rules doc !! k = doc !! k.
Proof.
  revert doc. induction rules as [|r rules IH]; intros doc H; [reflexivity|].
  cbn in H. apply andb_true_iff in H as [Hr H].
  cbn [apply_rules fold_left].
  change (apply_rules rules (apply_rule r doc) !! k = doc !! k).
  rewrite IH by assumption.
  apply apply_rule_lookup_ne.
  apply negb_true_iff, String.eqb_neq in Hr. exact Hr.
Qed.

(* --------------------------------------------------------------------- *)
(** *** activate, case by case *)
(* --------------------------------------------------------------------- *)

Ltac run_host :=
  cbv [mbind M_bind mret M_ret try_catch throw when_ Logger_error Logger_log
       setCommandContext_Enabled window_showErrorMessage showWelcomePage
       globalState_update globalState_get].

Lemma activate_enabled a w :
  gitEnabled a = true ->
  activate a w =
  (migrateSettings (globalState w);; activate_rest a (globalState w)) w.
Proof. intros H. unfold activate. rewrite H. reflexivity. Qed.

Lemma activate_disabled a w :
  gitEnabled a = false ->
  exists w', activate a w = Returned tt w' /\
    settings w' = settings w /\ globalState w' = globalState w /\
    enabledContext w' = Some false /\
    invocations w' = invocations w /\ writes w' = writes w.
Proof.
  intros H. unfold activate. rewrite H. cbn [negb]. run_host.
  eexists. split; [reflexivity|]. cbn. repeat split.
Qed.

(** A marker that does not parse: the exception of line 80 leaves
    migrateSettings and then [activate], which stops there. *)
Lemma activate_unreadable a w version :
  gitEnabled a = true ->
  globalState w = Some version ->
  Versions.fromString version = None ->
  activate a w = Threw (ParseError version) w.
Proof.
  intros He Hm Hp. rewrite activate_enabled by assumption.
  rewrite bind_run, Hm, migrateSettings_unparsed by assumption.
  reflexivity.
Qed.

Lemma activate_rest_failed a previousVersion message w :
  gitInitialize a = Some message ->
  exists w', activate_rest a previousVersion w = Returned tt w' /\
    settings w' = settings w /\ globalState w' = globalState w /\
    enabledContext w' = Some false /\
    LoggedError (Error message) "activate" ∈ log w' /\
    invocations w' = invocations w /\ writes w' = writes w.
Proof.
  intros H. unfold activate_rest, GitService_initialize. rewrite H.
  run_host. destruct (includes _ message);
    (eexists; split; [reflexivity|]; cbn; repeat split;
     apply elem_of_app; right; apply list_elem_of_singleton; reflexivity).
Qed.

Lemma activate_rest_initialized a previousVersion w :
  gitInitialize a = None ->
  exists w', activate_rest a previousVersion w = Returned tt w' /\
    settings w' = settings w /\
    globalState w' = Some (gitlensVersion a) /\
    enabledContext w' = enabledContext w /\
    invocations w' = invocations w /\ writes w' = writes w.
Proof.
  intros H. unfold activate_rest, GitService_initialize. rewrite H.
  run_host. destruct previousVersion as [previous|];
    [destruct (String.eqb previous (gitlensVersion a)); cbn [negb]|];
    (eexists; split; [reflexivity|]; cbn; repeat split).
Qed.

(* ===================================================================== *)
(** ** Startup and the version marker *)
(* ===================================================================== *)

(** Claim C9. On a first-time install (no stored previous version)
    migrateSettings returns at once: it makes no migration call and no
    write, and leaves the world as it found it. Over the whole of
    [activate] the settings document and the two traces are unchanged, and
    the marker is either still absent or the current version; it is the
    current version whenever git is enabled and initialises. *)
Theorem first_install_is_a_no_op (a : Activation) (w : World) :
  globalState w = None ->
  migrateSettings (globalState w) w = Returned tt w /\
  exists w',
    activate a w = Returned tt w' /\
    settings w' = settings w /\
    invocations w' = invocations w /\
    writes w' = writes w /\
    (globalState w' = None \/ globalState w' = Some (gitlensVersion a)) /\
    (gitEnabled a = true -> gitInitialize a = None ->
     globalState w' = Some (gitlensVersion a)).
Proof.
  intros Hm. rewrite Hm. split; [reflexivity|].
  destruct (gitEnabled a) eqn:He.
  - rewrite activate_enabled, bind_run, Hm by assumption.
    rewrite migrateSettings_first_install.
    destruct (gitInitialize a) as [message|] eqn:Hg.
    + destruct (activate_rest_failed a None message w Hg)
        as (w' & -> & Hs & Hgs & _ & _ & Hi & Hw).
      exists w'. repeat split; try assumption; try discriminate.
      left. congruence.
    + destruct (activate_rest_initialized a None w Hg)
        as (w' & -> & Hs & Hgs & _ & Hi & Hw).
      exists w'. repeat split; try assumption; try (intros; assumption).
      now right.
  - destruct (activate_disabled a w He) as (w' & -> & Hs & Hgs & _ & Hi & Hw).
    exists w'. repeat split; try assumption; try discriminate.
    left. congruence.
Qed.

(** Claim C2, on the code. With git enabled and the marker ["latest"],
    which does not parse, [Versions.fromString] throws at line 80, before
    the [try] of line 82 is entered: migrateSettings throws without
    logging, [activate] does not catch it at line 33, and startup ends
    there with the world untouched. *)
Theorem malformed_marker_aborts_startup :
  let a := mkActivation "8.0.2" true None in
  let w := mkWorld ∅ (Some "latest") None [] false [] [] in
  migrateSettings (Some "latest") w = Threw (ParseError "latest") w /\
  activate a w = Threw (ParseError "latest") w.
Proof.
  intros a w. split.
  - now apply migrateSettings_unparsed.
  - now apply activate_unreadable.
Qed.

(** Claim C4, as amended. When git is enabled, the marker is absent or
    parses, and [GitService.initialize] succeeds, [activate] returns with
    the current version stored as the marker, whatever the migration calls
    did on the way. *)
Theorem marker_written_after_initialization (a : Activation) (w : World) :
  gitEnabled a = true ->
  marker_readable w ->
  gitInitialize a = None ->
  exists w',
    activate a w = Returned tt w' /\
    globalState w' = Some (gitlensVersion a) /\
    settings w' = apply_rules (rules_for (globalState w)) (settings w).
Proof.
  intros He Hm Hg.
  rewrite activate_enabled, bind_run, migrateSettings_readable by assumption.
  destruct (activate_rest_initialized a (globalState w)
              (after_calls (rules_for (globalState w)) w) Hg)
    as (w' & -> & Hs & Hgs & _).
  exists w'. repeat split; try assumption.
  now rewrite Hs, settings_after_calls.
Qed.


(* ===================================================================== *)
(** ** Version gating *)
(* ===================================================================== *)

(** Claim C5. For a marker that parses, the calls migrateSettings makes are
    those of the blocks whose threshold the previous version is at or
    below ([compare(previous, threshold) <= 0]), block after block in
    source order; and the thresholds met in that order are 7.5.10,
    8.0.0-beta2, 8.0.0-rc, 8.0.0, 8.0.2, each strictly below all that
    follow. *)
Theorem batches_gated_in_ascending_order (version : string)
    (previous : Versions.Version) (w : World) :
  Versions.fromString version = Some previous ->
  (exists w',
     migrateSettings (Some version) w = Returned tt w' /\
     invocations w' =
       invocations w ++
       flat_map (fun b =>
                   if decide (Versions.compare previous (fst b) <= 0)
                   then invocation_of <$> snd b else [])
                registry) /\
  fst <$> registry =
    [Versions.from 7 5 10 None; Versions.from 8 0 0 (Some "beta2");
     Versions.from 8 0 0 (Some "rc"); Versions.from 8 0 0 None;
     Versions.from 8 0 2 None] /\
  StronglySorted (fun t1 t2 => Versions.compare t1 t2 = -1) (fst <$> registry).
Proof.
  intros Hp. split; [|split].
  - exists (after_calls (applicable previous) w). split.
    + now apply migrateSettings_parsed.
    + rewrite invocations_after_calls. f_equal.
      unfold applicable, registry. cbn [flat_map fst snd].
      rewrite !fmap_app, !not_above_decide, !fmap_if_decide.
      reflexivity.
  - reflexivity.
  - cbn [registry fmap list_fmap fst].
    repeat constructor.
Qed.

(* ===================================================================== *)
(** ** The document after a run, key by key *)
(* ===================================================================== *)

Lemma applicable_guarded previous :
  applicable previous =
  guarded (not_above previous (Versions.from 7 5 10 None))
          (not_above previous (Versions.from 8 0 0 (Some "beta2")))
          (not_above previous (Versions.from 8 0 0 (Some "rc")))
          (not_above previous (Versions.from 8 0 0 None))
          (not_above previous (Versions.from 8 0 2 None)).
Proof.
  unfold applicable, guarded, registry. cbn [flat_map fst snd].
  now rewrite app_nil_r.
Qed.

Lemma key_step_correct r (doc : gmap string value) env k :
  local r ->
  (destinationKey r = k ->
   sourceKey r = k \/ env (sourceKey r) = doc !! sourceKey r) ->
  apply_rule r doc !! k = key_step env k (doc !! k) r.
Proof.
  intros Hl Hs. unfold key_step.
  destruct (String.eqb (destinationKey r) k) eqn:Hd.
  - apply String.eqb_eq in Hd. specialize (Hs Hd).
    unfold apply_rule. rewrite Hl, Hd.
    assert (Hsrc : doc !! sourceKey r =
                   if String.eqb (sourceKey r) k then doc !! k
                   else env (sourceKey r)).
    { destruct (String.eqb (sourceKey r) k) eqn:E.
      - apply String.eqb_eq in E. now rewrite E.
      - apply String.eqb_neq in E. destruct Hs; [contradiction | congruence]. }
    rewrite <- Hsrc.
    destruct (rule_write_on r _ _); [|reflexivity].
    rewrite lookup_write_in. destruct (decide _); [reflexivity | contradiction].
  - apply String.eqb_neq in Hd. now apply apply_rule_lookup_ne.
Qed.

Lemma existsb_eqb_false s seen :
  existsb (String.eqb s) seen = false -> s ∉ seen.
Proof.
  induction seen as [|x seen IH]; cbn; intros H Hin.
  - inversion Hin.
  - apply orb_false_iff in H as [Hx H].
    apply elem_of_cons in Hin as [->|Hin].
    + now rewrite String.eqb_refl in Hx.
    + now apply IH.
Qed.

(** The value a staged list of local rules leaves under a key: fold the
    rules that write the key, reading every other key from the document
    the list started on. *)
Lemma lookup_apply_rules rules :
  Forall local rules ->
  forall seen (doc0 doc : gmap string value) k,
    staged seen rules = true ->
    (forall s, s ∉ seen -> doc !! s = doc0 !! s) ->
    apply_rules rules doc !! k =
    key_fold rules (fun s => doc0 !! s) k (doc !! k).
Proof.
  induction 1 as [|r rules Hl _ IH]; intros seen doc0 doc k Hst Hsame;
    [reflexivity|].
  cbn [staged] in Hst. apply andb_true_iff in Hst as [Hr Hst].
  cbn [apply_rules key_fold fold_left].
  change (apply_rules rules (apply_rule r doc) !! k =
          key_fold rules (fun s => doc0 !! s) k
                   (key_step (fun s => doc0 !! s) k (doc !! k) r)).
  rewrite (IH (destinationKey r :: seen) doc0 (apply_rule r doc) k Hst).
  - f_equal. apply key_step_correct; [assumption|].
    intros Hd.
    destruct (String.eqb (sourceKey r) k) eqn:E;
      [left; now apply String.eqb_eq|right].
    apply orb_true_iff in Hr as [Hr|Hr].
    + apply String.eqb_eq in Hr. rewrite Hr, Hd, String.eqb_refl in E.
      discriminate.
    + symmetry. apply Hsame. apply existsb_eqb_false.
      now apply negb_true_iff in Hr.
  - intros s Hs. rewrite apply_rule_lookup_ne.
    + apply Hsame. intros Hin. apply Hs. now right.
    + intros Heq. apply Hs. subst s. now left.
Qed.

Ltac local_rule :=
  intros doc; unfold rule_write, rule_write_on; reflexivity.

Lemma local_debugToOutputLevel :
  local (migrate "debug" (configuration_name ["outputLevel"])
                 (with_fn debugToOutputLevel)).
Proof.
  intros doc. unfold rule_write, rule_write_on.
  cbn [ruleMode sourceKey destinationKey options migrate with_fn
       fallbackValue migrationFn].
  destruct (doc !! "debug") as [v|]; [|reflexivity].
  unfold debugToOutputLevel, get_in, get_at.
  change (configuration_name ["outputLevel"]) with "outputLevel".
  rewrite String.eqb_refl. reflexivity.
Qed.

Lemma local_batch_7_5_10 : Forall local batch_7_5_10.
Proof. repeat (constructor; [local_rule|]). constructor. Qed.

Lemma local_batch_8_0_0_beta2 : Forall local batch_8_0_0_beta2.
Proof.
  constructor; [apply local_debugToOutputLevel|].
  repeat (constructor; [local_rule|]). constructor.
Qed.

Lemma local_batch_8_0_0_rc : Forall local batch_8_0_0_rc.
Proof. repeat (constructor; [local_rule|]). constructor. Qed.

Lemma local_batch_8_0_0 : Forall local batch_8_0_0.
Proof. repeat (constructor; [local_rule|]). constructor. Qed.

Lemma local_batch_8_0_2 : Forall local batch_8_0_2.
Proof. repeat (constructor; [local_rule|]). constructor. Qed.

Lemma Forall_if {A : Type} (P : A -> Prop) (c : bool) (l : list A) :
  Forall P l -> Forall P (if c then l else []).
Proof. destruct c; [trivial | constructor]. Qed.

Lemma local_guarded b1 b2 b3 b4 b5 : Forall local (guarded b1 b2 b3 b4 b5).
Proof.
  unfold guarded. repeat apply Forall_app_2; apply Forall_if.
  - apply local_batch_7_5_10.
  - apply local_batch_8_0_0_beta2.
  - apply local_batch_8_0_0_rc.
  - apply local_batch_8_0_0.
  - apply local_batch_8_0_2.
Qed.

Lemma staged_guarded b1 b2 b3 b4 b5 :
  staged [] (guarded b1 b2 b3 b4 b5) = true.
Proof. destruct b1, b2, b3, b4, b5; vm_compute; reflexivity. Qed.

Lemma lookup_guarded b1 b2 b3 b4 b5 (doc : gmap string value) k :
  apply_rules (guarded b1 b2 b3 b4 b5) doc !! k =
  key_fold (guarded b1 b2 b3 b4 b5) (fun s => doc !! s) k (doc !! k).
Proof.
  apply (lookup_apply_rules _ (local_guarded b1 b2 b3 b4 b5) []).
  - apply staged_guarded.
  - reflexivity.
Qed.

Lemma key_fold_app l1 l2 env k x :
  key_fold (l1 ++ l2) env k x = key_fold l2 env k (key_fold l1 env k x).
Proof. apply fold_left_app. Qed.

Lemma key_fold_untouched rules env k x :
  untouched_by rules k = true -> key_fold rules env k x = x.
Proof.
  revert x. induction rules as [|r rules IH]; intros x H; [reflexivity|].
  cbn in H. apply andb_true_iff in H as [Hr H].
  cbn [key_fold fold_left]. unfold key_step at 2.
  apply negb_true_iff in Hr. rewrite Hr. now apply IH.
Qed.

Lemma untouched_by_app l1 l2 k :
  untouched_by (l1 ++ l2) k = untouched_by l1 k && untouched_by l2 k.
Proof. apply forallb_app. Qed.

Lemma untouched_by_sub (c : bool) rules k :
  untouched_by rules k = true ->
  untouched_by (if c then rules else []) k = true.
Proof. now destruct c. Qed.

Lemma not_destination_untouched rules k :
  k ∉ (destinationKey <$> rules) -> untouched_by rules k = true.
Proof.
  induction rules as [|r rules IH]; intros H; [reflexivity|].
  cbn. apply andb_true_iff. split.
  - apply negb_true_iff, String.eqb_neq. intros Heq. apply H.
    rewrite fmap_cons, Heq. now left.
  - apply IH. intros Hin. apply H. rewrite fmap_cons. now right.
Qed.

Lemma untouched_guarded b1 b2 b3 b4 b5 k :
  k ∉ destinations -> untouched_by (guarded b1 b2 b3 b4 b5) k = true.
Proof.
  intros H. unfold destinations, all_rules, registry in H.
  cbn [flat_map snd] in H. rewrite app_nil_r, !fmap_app in H.
  rewrite !not_elem_of_app in H. destruct H as (H1 & H2 & H3 & H4 & H5).
  unfold guarded. rewrite !untouched_by_app.
  repeat (apply andb_true_iff; split);
    apply untouched_by_sub, not_destination_untouched; assumption.
Qed.

Lemma key_fold_if (c : bool) rules env k x :
  key_fold (if c then rules else []) env k x = when_fold c rules env k x.
Proof. now destruct c. Qed.

Lemma key_fold_guarded b1 b2 b3 b4 b5 env k x :
  key_fold (guarded b1 b2 b3 b4 b5) env k x =
  when_fold b5 batch_8_0_2 env k
    (when_fold b4 batch_8_0_0 env k
       (when_fold b3 batch_8_0_0_rc env k
          (when_fold b2 batch_8_0_0_beta2 env k
             (when_fold b1 batch_7_5_10 env k x)))).
Proof.
  unfold guarded. rewrite !key_fold_app, !key_fold_if. reflexivity.
Qed.

Lemma when_fold_untouched c rules env k x :
  untouched_by rules k = true -> when_fold c rules env k x = x.
Proof.
  intros H. unfold when_fold. destruct c; [|reflexivity].
  now apply key_fold_untouched.
Qed.

(** Only the sources of the rules that write a key matter to it. *)
Lemma key_fold_env rules env1 env2 k x :
  Forall (fun r => destinationKey r = k ->
                   sourceKey r = k \/ env1 (sourceKey r) = env2 (sourceKey r))
         rules ->
  key_fold rules env1 k x = key_fold rules env2 k x.
Proof.
  intros H. revert x. induction H as [|r rules Hr _ IH]; intros x;
    [reflexivity|].
  cbn [key_fold fold_left].
  change (key_fold rules env1 k (key_step env1 k x r) =
          key_fold rules env2 k (key_step env2 k x r)).
  rewrite IH. f_equal. unfold key_step.
  destruct (String.eqb (destinationKey r) k) eqn:Hd; [|reflexivity].
  apply String.eqb_eq in Hd. destruct (Hr Hd) as [Hs|Hs].
  - apply String.eqb_eq in Hs. now rewrite Hs.
  - now rewrite Hs.
Qed.

Lemma reads_untouched_guarded b1 b2 b3 b4 b5 :
  Forall (fun r => reads_untouched r = true) (guarded b1 b2 b3 b4 b5).
Proof.
  unfold guarded. repeat apply Forall_app_2; apply Forall_if;
    apply Forall_forall; intros r Hr; apply list_elem_of_In in Hr;
    revert r Hr; apply forallb_forall; vm_compute; reflexivity.
Qed.

(* --------------------------------------------------------------------- *)
(** *** Evaluating a key over the five blocks *)
(* --------------------------------------------------------------------- *)

(** Unfold the folds over the concrete blocks, leaving the transforms and
    the JavaScript helpers folded. *)
Ltac eval_key :=
  lazy -[truthy array_map replace_first includes strict_eq_str prop
         object_literal scopesByLanguage wholeLine overviewRulerToOverview
         debugToOutputLevel get_at].

(** Split a fold over the guarded calls by block, dropping the blocks that
    do not write the key at hand. *)
Ltac simpl_guarded :=
  rewrite !key_fold_guarded;
  rewrite ?(when_fold_untouched _ batch_7_5_10) by reflexivity;
  rewrite ?(when_fold_untouched _ batch_8_0_0_beta2) by reflexivity;
  rewrite ?(when_fold_untouched _ batch_8_0_0_rc) by reflexivity;
  rewrite ?(when_fold_untouched _ batch_8_0_0) by reflexivity;
  rewrite ?(when_fold_untouched _ batch_8_0_2) by reflexivity.

(** Case analysis on what the evaluated term is stuck on: a key of the
    initial document, the outcome of a transform, a guard. The transforms
    that ignore [configuration.get] are first brought to one form. *)
Ltac break_key env :=
  repeat match goal with
  | |- context [scopesByLanguage ?g ?v] =>
      lazymatch g with
      | defaults => fail
      | _ => change (scopesByLanguage g v) with (scopesByLanguage defaults v)
      end
  | |- context [wholeLine ?g ?v] =>
      lazymatch g with
      | defaults => fail
      | _ => change (wholeLine g v) with (wholeLine defaults v)
      end
  | |- context [overviewRulerToOverview ?g ?v] =>
      lazymatch g with
      | defaults => fail
      | _ => change (overviewRulerToOverview g v)
             with (overviewRulerToOverview defaults v)
      end
  | |- context [match env ?s with _ => _ end] => destruct (env s) eqn:?
  | |- context [match scopesByLanguage ?g ?v with _ => _ end] =>
      destruct (scopesByLanguage g v) eqn:?
  | |- context [match wholeLine ?g ?v with _ => _ end] =>
      destruct (wholeLine g v) eqn:?
  | |- context [match overviewRulerToOverview ?g ?v with _ => _ end] =>
      destruct (overviewRulerToOverview g v) eqn:?
  | |- context [match ?x with _ => _ end] => is_var x; destruct x
  | |- context [if ?x then _ else _] => is_var x; destruct x
  | |- context [if strict_eq_str ?v ?lit then _ else _] =>
      destruct (strict_eq_str v lit) eqn:?
  end.

Lemma overviewRulerToOverview_defined get v :
  overviewRulerToOverview get v <> Ok None.
Proof.
  unfold overviewRulerToOverview. destruct v; try discriminate.
  now destruct (includes _ _).
Qed.

Ltac use_settled :=
  let Hset := fresh "Hset" in
  intros Hset;
  try congruence;
  repeat match goal with
  | H : overviewRulerToOverview defaults ?v = Ok None |- _ =>
      exfalso; exact (overviewRulerToOverview_defined _ _ H)
  | H : overviewRulerToOverview defaults ?v = Ok ?a |- _ =>
      is_var a; destruct a
  end;
  try congruence;
  try match type of Hset with
  | forall v, Some ?w = Some v -> _ =>
      destruct (Hset w eq_refl ltac:(auto) eq_refl); congruence
  end.

(** Running the guarded calls on the value they left under a key gives
    that value again. The key [outputLevel] is treated apart, and for the
    two highlight-locations keys the rename has to have settled. *)
Lemma key_settles b1 b2 b3 b4 b5 (env : string -> option value) k x :
  k ∈ destinations ->
  k <> "outputLevel" ->
  (forall v,
     key_fold (guarded b1 b2 b3 b4 b5) env k x = Some v ->
     k = "blame.highlight.locations" \/
     k = "recentChanges.highlight.locations" ->
     b3 = true ->
     overviewRulerToOverview defaults v = Throws \/
     overviewRulerToOverview defaults v = Ok (Some v)) ->
  key_fold (guarded b1 b2 b3 b4 b5) env k
           (key_fold (guarded b1 b2 b3 b4 b5) env k x) =
  key_fold (guarded b1 b2 b3 b4 b5) env k x.
Proof.
  intros Hk Hol Hset.
  apply elem_of_remove_dups in Hk. vm_compute in Hk.
  repeat (apply elem_of_cons in Hk as [->|Hk]);
    [..|now apply elem_of_nil in Hk].
  all: try (exfalso; apply Hol; reflexivity).
  all: revert Hset; simpl_guarded; eval_key.
  all: try (intros _; reflexivity).
  all: break_key env; try (intros _; reflexivity); try (intros _; congruence).
  all: use_settled.
Qed.

Lemma debug_fold b1 b3 b4 b5 (env : string -> option value) x :
  key_fold (guarded b1 true b3 b4 b5) env "debug" x = None.
Proof. simpl_guarded. eval_key. now destruct x. Qed.

Lemma lookup_debug_after b1 b3 b4 b5 (doc : gmap string value) :
  apply_rules (guarded b1 true b3 b4 b5) doc !! "debug" = None.
Proof. rewrite lookup_guarded. apply debug_fold. Qed.

Lemma outputLevel_fold_without_debug (env : string -> option value) x :
  env "debug" = None ->
  batch_fold batch_8_0_0_beta2 env "outputLevel" x = x.
Proof. intros H. eval_key. now rewrite H. Qed.

Lemma outputLevel_settles b1 b2 b3 b4 b5 (doc : gmap string value) :
  let after := apply_rules (guarded b1 b2 b3 b4 b5) doc in
  apply_rules (guarded b1 b2 b3 b4 b5) after !! "outputLevel" =
  after !! "outputLevel".
Proof.
  intros after. rewrite (lookup_guarded b1 b2 b3 b4 b5 after).
  simpl_guarded. unfold when_fold. destruct b2; [|reflexivity].
  apply outputLevel_fold_without_debug. apply lookup_debug_after.
Qed.

(** The document the guarded calls produce is left as it is by the same
    calls, once the rename of the 8.0.0-rc block has nothing left to do
    on it. *)
Lemma guarded_settles b1 b2 b3 b4 b5 (doc : gmap string value) :
  let after := apply_rules (guarded b1 b2 b3 b4 b5) doc in
  (b3 = true ->
   forall key v,
     key = configuration_name ["blame"; "highlight"; "locations"] \/
     key = configuration_name ["recentChanges"; "highlight"; "locations"] ->
     after !! key = Some v ->
     overviewRulerToOverview (get_in after) v = Throws \/
     overviewRulerToOverview (get_in after) v = Ok (Some v)) ->
  apply_rules (guarded b1 b2 b3 b4 b5) after = after.
Proof.
  intros after Hset. apply map_eq. intros k.
  destruct (decide (k = "outputLevel")) as [->|Hol];
    [apply outputLevel_settles|].
  rewrite (lookup_guarded b1 b2 b3 b4 b5 after k).
  rewrite (key_fold_env _ (fun s => after !! s) (fun s => doc !! s)).
  - assert (Hafter : after !! k =
                     key_fold (guarded b1 b2 b3 b4 b5) (fun s => doc !! s) k
                              (doc !! k))
      by apply lookup_guarded.
    rewrite Hafter.
    destruct (decide (k ∈ destinations)) as [Hk|Hk].
    + apply key_settles; [assumption | assumption |].
      intros v Hv Hkey Hb3. rewrite <- Hafter in Hv.
      exact (Hset Hb3 k v Hkey Hv).
    + rewrite !key_fold_untouched by (now apply untouched_guarded).
      reflexivity.
  - eapply Forall_impl; [apply reads_untouched_guarded|].
    intros r Hr Hd. cbn beta. unfold reads_untouched in Hr.
    apply orb_true_iff in Hr as [Hr|Hr];
      [apply orb_true_iff in Hr as [Hr|Hr]|].
    + left. apply String.eqb_eq in Hr. congruence.
    + right. apply apply_rules_untouched, untouched_guarded,
        existsb_eqb_false. now apply negb_true_iff.
    + apply String.eqb_eq in Hr. congruence.
Qed.

(* ===================================================================== *)
(** ** The rules *)
(* ===================================================================== *)


Lemma source_fold_stays_set b1 b2 b3 b4 b5 (env : string -> option value) k :
  k ∈ (sourceKey <$> all_rules) ->
  k <> "debug" ->
  is_Some (env k) ->
  is_Some (key_fold (guarded b1 b2 b3 b4 b5) env k (env k)).
Proof.
  intros Hk.
  apply elem_of_remove_dups in Hk. vm_compute in Hk.
  repeat (apply elem_of_cons in Hk as [->|Hk]);
    [..|now apply elem_of_nil in Hk].
  all: intros Hdebug [v0 Hv0]; try (exfalso; apply Hdebug; reflexivity).
  all: simpl_guarded; rewrite ?Hv0; try (eexists; reflexivity).
  all: eval_key; rewrite ?Hv0.
  all: break_key env; try (eexists; reflexivity).
  all: match goal with
       | H : overviewRulerToOverview defaults _ = Ok ?a |- _ =>
           destruct a; [eexists; reflexivity|];
           exfalso; exact (overviewRulerToOverview_defined _ _ H)
       end.
Qed.

(** Claim C3, as amended. Whatever the marker, a key other than [debug]
    that is the source of some rule and is set before the run is still set
    after it. *)
Theorem sources_other_than_debug_stay_set (marker : option string)
    (w w' : World) (r : rule) :
  migrateSettings marker w = Returned tt w' ->
  r ∈ all_rules ->
  sourceKey r <> "debug" ->
  is_Some (settings w !! sourceKey r) ->
  is_Some (settings w' !! sourceKey r).
Proof.
  intros Hrun Hr Hdebug Hset.
  assert (Hdoc : exists b1 b2 b3 b4 b5,
             settings w' = apply_rules (guarded b1 b2 b3 b4 b5) (settings w)).
  { destruct marker as [version|].
    - destruct (Versions.fromString version) as [previous|] eqn:Hp.
      + rewrite (migrateSettings_parsed _ _ _ Hp) in Hrun.
        injection Hrun as <-.
        rewrite settings_after_calls, applicable_guarded. eauto 6.
      + now rewrite (migrateSettings_unparsed _ _ Hp) in Hrun.
    - rewrite migrateSettings_first_install in Hrun. injection Hrun as <-.
      exists false, false, false, false, false. reflexivity. }
  destruct Hdoc as (b1 & b2 & b3 & b4 & b5 & ->).
  rewrite lookup_guarded.
  apply (source_fold_stays_set b1 b2 b3 b4 b5 (fun s => settings w !! s));
    [|assumption|assumption].
  now apply list_elem_of_fmap_2.
Qed.

(** Claim C6. Previous version 7.5.9 with only [blame.line.enabled] set,
    to [true]: after the run [currentLine.enabled] and
    [hovers.currentLine.enabled] are both [true] and the legacy key is
    still [true]; the writes made are those two and the keymap fallback.
    Previous version 8.0.3: the run returns the world as it found it. *)
Theorem blame_line_enabled_fans_out :
  let legacy : gmap string value := {[ "blame.line.enabled" := VBool true ]} in
  let w := mkWorld legacy (Some "7.5.9") None [] false [] [] in
  (exists w',
     migrateSettings (Some "7.5.9") w = Returned tt w' /\
     settings w' !! "currentLine.enabled" = Some (VBool true) /\
     settings w' !! "hovers.currentLine.enabled" = Some (VBool true) /\
     settings w' !! "blame.line.enabled" = Some (VBool true) /\
     writes w' = [("currentLine.enabled", Some (VBool true));
                  ("hovers.currentLine.enabled", Some (VBool true));
                  ("keymap", Some KeyMap_Alternate)]) /\
  forall w0, migrateSettings (Some "8.0.3") w0 = Returned tt w0.
Proof.
  intros legacy w. split.
  - exists (after_calls (applicable (Versions.from 7 5 9 None)) w).
    split; [now apply migrateSettings_parsed|].
    repeat split; vm_compute; reflexivity.
  - intros w0.
    now rewrite (migrateSettings_parsed "8.0.3" (Versions.from 8 0 3 None)).
Qed.

Lemma outputLevel_fold b1 b3 b4 b5 (env : string -> option value) x (b : bool) :
  env "debug" = Some (VBool b) ->
  key_fold (guarded b1 true b3 b4 b5) env "outputLevel" x =
  if b then Some OutputLevel_Debug
  else match x with
       | Some v => Some v
       | None => defaults "outputLevel"
       end.
Proof.
  intros Hdebug. simpl_guarded. eval_key. rewrite Hdebug.
  unfold debugToOutputLevel, get_at. cbn [truthy].
  destruct b; [reflexivity|].
  change (configuration_name ["outputLevel"]) with "outputLevel".
  now rewrite String.eqb_refl.
Qed.

(** Claim C7. When the 8.0.0-beta2 block applies and the legacy [debug]
    key holds a boolean: for [true] the run leaves [outputLevel] set to
    [OutputLevel.Debug]; for [false] it leaves under [outputLevel] what
    [configuration.get] returned for [outputLevel] on the document the run
    started on (its explicit value if it has one, else its default). *)
Theorem debug_maps_to_outputLevel (version : string)
    (previous : Versions.Version) (w : World) (b : bool) :
  Versions.fromString version = Some previous ->
  Versions.compare previous (Versions.from 8 0 0 (Some "beta2")) <= 0 ->
  settings w !! "debug" = Some (VBool b) ->
  exists w',
    migrateSettings (Some version) w = Returned tt w' /\
    settings w' !! configuration_name ["outputLevel"] =
      if b then Some OutputLevel_Debug
      else get_in (settings w) (configuration_name ["outputLevel"]).
Proof.
  intros Hp Hle Hdebug.
  exists (after_calls (applicable previous) w).
  split; [now apply migrateSettings_parsed|].
  rewrite settings_after_calls, applicable_guarded, lookup_guarded.
  apply not_above_le in Hle. rewrite Hle.
  apply (outputLevel_fold _ _ _ _ (fun s => settings w !! s)).
  exact Hdebug.
Qed.

(** Claim C8, as amended. Two runs in a row with the same marker leave the
    document the first run produced, provided that, when the 8.0.0-rc
    block runs for the marker, its rename of ['overviewRuler'] leaves
    [blame.highlight.locations] and [recentChanges.highlight.locations]
    of that document unchanged. *)
Theorem second_run_changes_nothing_once_renamed (marker : option string)
    (w w1 w2 : World) :
  migrateSettings marker w = Returned tt w1 ->
  migrateSettings marker w1 = Returned tt w2 ->
  rename_settled marker (settings w1) ->
  settings w2 = settings w1.
Proof.
  intros H1 H2 Hset. destruct marker as [version|].
  - destruct (Versions.fromString version) as [previous|] eqn:Hp.
    + rewrite (migrateSettings_parsed _ _ w Hp) in H1. injection H1 as <-.
      rewrite (migrateSettings_parsed _ _ _ Hp) in H2. injection H2 as <-.
      rewrite !settings_after_calls, applicable_guarded in *.
      unfold rename_settled, renames in Hset. rewrite Hp in Hset.
      apply guarded_settles. intros Hb3 key v Hkey Hv.
      exact (Hset Hb3 key v Hkey Hv).
    + now rewrite (migrateSettings_unparsed _ _ Hp) in H1.
  - rewrite migrateSettings_first_install in H1, H2.
    injection H1 as <-. now injection H2 as <-.
Qed.

(* ===================================================================== *)
(** ** The transforms of migrateSettings on their own *)
(* ===================================================================== *)

Lemma replace_first_length lit by_ items :
  length (replace_first lit by_ items) = length items.
Proof.
  induction items as [|x items IH]; [reflexivity|].
  cbn. destruct (strict_eq_str x lit); cbn; [reflexivity | now rewrite IH].
Qed.

Lemma replace_first_keeps lit by_ items i x :
  items !! i = Some x ->
  strict_eq_str x lit = false ->
  replace_first lit by_ items !! i = Some x.
Proof.
  revert i. induction items as [|y items IH]; intros i Hi Hx; [discriminate|].
  cbn. destruct (strict_eq_str y lit) eqn:Hy.
  - destruct i as [|i]; cbn in *; [congruence | assumption].
  - destruct i as [|i]; cbn in *; [assumption | now apply IH].
Qed.

(** The rename of lines 148-154 and 159-165 on an array: it does not
    throw, the array keeps its length, and every member that is not
    ['overviewRuler'] keeps its place. *)
Theorem rename_keeps_the_other_members (get : string -> option value)
    (items : list value) :
  exists renamed,
    overviewRulerToOverview get (VArr items) = Ok (Some (VArr renamed)) /\
    length renamed = length items /\
    forall i x,
      items !! i = Some x ->
      strict_eq_str x "overviewRuler" = false ->
      renamed !! i = Some x.
Proof.
  exists (replace_first "overviewRuler" "overview" items).
  split; [reflexivity|]. split; [apply replace_first_length|].
  intros i x. apply replace_first_keeps.
Qed.

Lemma count_replace_first_lit items :
  count_members "overviewRuler"
    (replace_first "overviewRuler" "overview" items) =
  pred (count_members "overviewRuler" items).
Proof.
  induction items as [|x items IH]; [reflexivity|].
  cbn [replace_first count_members].
  destruct (strict_eq_str x "overviewRuler") eqn:Hx.
  - cbn. reflexivity.
  - cbn [count_members]. rewrite Hx, IH. reflexivity.
Qed.

Lemma count_replace_first_total items :
  (count_members "overview"
     (replace_first "overviewRuler" "overview" items) +
   count_members "overviewRuler"
     (replace_first "overviewRuler" "overview" items))%nat =
  (count_members "overview" items + count_members "overviewRuler" items)%nat.
Proof.
  induction items as [|x items IH]; [reflexivity|].
  cbn [replace_first count_members].
  destruct (strict_eq_str x "overviewRuler") eqn:Hx.
  - destruct x; try discriminate. cbn in Hx. apply String.eqb_eq in Hx.
    subst s. cbn. lia.
  - cbn [count_members]. rewrite Hx. lia.
Qed.

(** One rename takes away exactly one ['overviewRuler'] (if there is one)
    and puts an ['overview'] in its place: the two counts keep their sum,
    and an array with several occurrences is not cleared by one run. *)
Theorem rename_replaces_exactly_one (get : string -> option value)
    (items : list value) :
  exists renamed,
    overviewRulerToOverview get (VArr items) = Ok (Some (VArr renamed)) /\
    count_members "overviewRuler" renamed =
      pred (count_members "overviewRuler" items) /\
    (count_members "overview" renamed +
     count_members "overviewRuler" renamed)%nat =
    (count_members "overview" items +
     count_members "overviewRuler" items)%nat.
Proof.
  exists (replace_first "overviewRuler" "overview" items).
  split; [reflexivity|].
  split; [apply count_replace_first_lit | apply count_replace_first_total].
Qed.

Lemma replace_first_absent lit by_ items :
  count_members lit items = 0%nat -> replace_first lit by_ items = items.
Proof.
  induction items as [|x items IH]; [reflexivity|].
  cbn. destruct (strict_eq_str x lit); [discriminate|].
  cbn. intros H. now rewrite IH.
Qed.

Lemma replace_first_changes items :
  replace_first "overviewRuler" "overview" items = items ->
  count_members "overviewRuler" items = 0%nat.
Proof.
  induction items as [|x items IH]; [reflexivity|].
  cbn. destruct (strict_eq_str x "overviewRuler") eqn:Hx.
  - destruct x; try discriminate. cbn in Hx. apply String.eqb_eq in Hx.
    subst s. discriminate.
  - cbn. intros H. injection H as H. now apply IH.
Qed.

(** A second rename changes what the first one returned exactly when the
    array held ['overviewRuler'] more than once. *)
Theorem rename_twice_is_once_iff_at_most_one (get : string -> option value)
    (items : list value) :
  exists once,
    overviewRulerToOverview get (VArr items) = Ok (Some (VArr once)) /\
    (overviewRulerToOverview get (VArr once) = Ok (Some (VArr once)) <->
     (count_members "overviewRuler" items <= 1)%nat).
Proof.
  exists (replace_first "overviewRuler" "overview" items).
  split; [reflexivity|]. cbn [overviewRulerToOverview]. split.
  - intros H. injection H as H. apply replace_first_changes in H.
    rewrite count_replace_first_lit in H. lia.
  - intros H. do 3 f_equal. apply replace_first_absent.
    rewrite count_replace_first_lit. lia.
Qed.

(** On anything but an array the rename throws, except on a string that
    does not contain ['overviewRuler'], which it returns as it is. *)
Theorem rename_outside_arrays (get : string -> option value) (v : value) :
  (forall items, v <> VArr items) ->
  (overviewRulerToOverview get v = Throws \/
   overviewRulerToOverview get v = Ok (Some v)) /\
  (overviewRulerToOverview get v = Ok (Some v) <->
   exists s, v = VStr s /\ includes "overviewRuler" s = false).
Proof.
  intros Harr. destruct v as [|b|n|s|items|props]; cbn.
  1-3, 6: split; [now left|]; split; [discriminate|];
    intros (s & Hs & _); discriminate.
  - destruct (includes "overviewRuler" s) eqn:Hi.
    + split; [now left|]. split; [discriminate|].
      intros (s' & Hs & Hi'). injection Hs as <-. congruence.
    + split; [now right|]. split; [eauto|reflexivity].
  - exfalso. now apply (Harr items).
Qed.

Lemma array_map_length f items mapped :
  array_map f items = Ok mapped -> length mapped = length items.
Proof.
  revert mapped. induction items as [|x items IH]; intros mapped H.
  - injection H as <-. reflexivity.
  - cbn in H. destruct (f x); [|discriminate].
    destruct (array_map f items) as [ys|]; [|discriminate].
    injection H as <-. cbn. now rewrite (IH ys).
Qed.

Lemma array_map_throws f items :
  array_map f items = Throws <-> exists x, x ∈ items /\ f x = Throws.
Proof.
  induction items as [|x items IH]; cbn.
  - split; [discriminate|]. intros (x & Hx & _). inversion Hx.
  - destruct (f x) eqn:Hfx.
    + destruct (array_map f items) as [ys|] eqn:Hm.
      * split; [discriminate|]. intros (y & Hy & Hfy).
        apply elem_of_cons in Hy as [->|Hy]; [congruence|].
        assert (Hsome : Ok ys = Throws) by (apply IH; eauto).
        discriminate.
      * split; [|reflexivity]. intros _.
        destruct (proj1 IH eq_refl) as (y & Hy & Hfy).
        exists y. split; [now right | assumption].
    + split; [|reflexivity]. intros _. exists x. split; [now left | assumption].
Qed.

Lemma array_map_Forall f (P : value -> Prop) items mapped :
  (forall x y, f x = Ok y -> P y) ->
  array_map f items = Ok mapped -> Forall P mapped.
Proof.
  intros Hf. revert mapped. induction items as [|x items IH]; intros mapped H.
  - injection H as <-. constructor.
  - cbn in H. destruct (f x) as [y|] eqn:Hfx; [|discriminate].
    destruct (array_map f items) as [ys|]; [|discriminate].
    injection H as <-. constructor; [now apply (Hf x) | now apply IH].
Qed.

Lemma object_literal_names props :
  fst <$> object_literal props ⊆ fst <$> props.
Proof.
  induction props as [|[k [v|]] props IH]; cbn.
  - reflexivity.
  - intros x Hx. apply elem_of_cons in Hx as [->|Hx]; [now left|].
    right. now apply IH.
  - intros x Hx. right. now apply IH.
Qed.

(** The transform of lines 97-106 and 183-192 throws exactly on a value
    that is not an array and on an array with a [null] member. *)
Theorem scopesByLanguage_throws_iff (get : string -> option value) (v : value) :
  scopesByLanguage get v = Throws <->
  (forall items, v <> VArr items) \/
  (exists items, v = VArr items /\ VNull ∈ items).
Proof.
  unfold scopesByLanguage.
  destruct v as [|b|n|s|items|props];
    try (split; [intros _; left; discriminate | reflexivity]).
  match goal with
  | |- context [array_map ?f items] => set (each := f)
  end.
  assert (Heach : forall ls, each ls = Throws <-> ls = VNull).
  { intros ls. unfold each. destruct ls; cbn; split; congruence. }
  destruct (array_map each items) as [scopes|] eqn:Hm.
  - split; [discriminate|]. intros [H|(items' & Heq & Hnull)].
    + now destruct (H items).
    + injection Heq as <-.
      assert (Ht : array_map each items = Throws).
      { apply array_map_throws. exists VNull. split; [assumption|].
        now apply Heach. }
      congruence.
  - split; [|reflexivity]. intros _. right. exists items. split; [reflexivity|].
    apply array_map_throws in Hm as (x & Hx & Hfx).
    apply Heach in Hfx. now subst x.
Qed.

(** When it returns, the transform returns an array of the same length
    whose members are objects with no property but [language], [scopes]
    and [symbolScopes]. *)
Theorem scopesByLanguage_shape (get : string -> option value)
    (v : value) (result : option value) :
  scopesByLanguage get v = Ok result ->
  exists items scopes,
    v = VArr items /\ result = Some (VArr scopes) /\
    length scopes = length items /\
    Forall (fun scope =>
              (exists props, scope = VObj props) /\
              property_names scope ⊆ ["language"; "scopes"; "symbolScopes"])
           scopes.
Proof.
  unfold scopesByLanguage.
  destruct v as [|b|n|s|items|props]; try discriminate.
  match goal with
  | |- context [array_map ?f items] => set (each := f)
  end.
  destruct (array_map each items) as [scopes|] eqn:Hm; [|discriminate].
  intros H. injection H as <-. exists items, scopes.
  split; [reflexivity|]. split; [reflexivity|].
  split; [now apply (array_map_length each)|].
  apply (array_map_Forall each _ items); [|assumption].
  intros x y. unfold each.
  destruct (prop "language" x) as [language|]; [|discriminate].
  destruct (prop "locations" x) as [locations|]; [|discriminate].
  destruct (prop "customSymbols" x) as [customSymbols|]; [|discriminate].
  intros Hy. injection Hy as <-. split; [eauto|].
  exact (object_literal_names
           [("language", language); ("scopes", locations);
            ("symbolScopes", customSymbols)]).
Qed.

(** The keymap transform of line 228 never throws, changes ['standard']
    only, and applied to its own result changes nothing. *)
Theorem standardToAlternate_settles (get : string -> option value) (v : value) :
  exists v',
    standardToAlternate get v = Ok (Some v') /\
    (v <> VStr "standard" -> v' = v) /\
    (v = VStr "standard" -> v' = KeyMap_Alternate) /\
    standardToAlternate get v' = Ok (Some v').
Proof.
  unfold standardToAlternate.
  destruct (strict_eq_str v "standard") eqn:Hv.
  - exists KeyMap_Alternate. split; [reflexivity|].
    split; [|split; [reflexivity|]].
    + intros Hne. destruct v; try discriminate. cbn in Hv.
      apply String.eqb_eq in Hv. now subst s.
    + now destruct (strict_eq_str KeyMap_Alternate "standard").
  - exists v. split; [reflexivity|]. split; [reflexivity|].
    split; [|now rewrite Hv].
    intros ->. cbn in Hv. discriminate.
Qed.

(* ===================================================================== *)
(** ** migrateSettings whatever the awaited calls do *)
(* ===================================================================== *)

Lemma sequence_app (l1 l2 : list (M unit)) w :
  sequence_ (l1 ++ l2) w = (sequence_ l1;; sequence_ l2) w.
Proof.
  revert w. induction l1 as [|c l1 IH]; intros w; [reflexivity|].
  cbn [app sequence_]. rewrite !bind_run.
  destruct (c w) as [[] w'|ex w']; [|reflexivity].
  rewrite IH. now rewrite bind_run.
Qed.

Lemma when_sequence (c : bool) (await_call : rule -> M unit) rules :
  when_ c (sequence_ (await_call <$> rules)) =
  sequence_ (await_call <$> (if c then rules else [])).
Proof. now destruct c. Qed.

Lemma bind_ext {A B} (m : M A) (k1 k2 : A -> M B) :
  (forall a w, k1 a w = k2 a w) -> forall w, (m ≫= k1) w = (m ≫= k2) w.
Proof.
  intros H w. rewrite !bind_run. destruct (m w); [apply H | reflexivity].
Qed.

Lemma try_catch_ext {A} (body1 body2 : M A) handler :
  (forall w, body1 w = body2 w) ->
  forall w, try_catch body1 handler w = try_catch body2 handler w.
Proof. intros H w. unfold try_catch. now rewrite H. Qed.

(** With a marker that parses, the body of the [try] is the sequence of
    the applicable calls. *)
Lemma migrateSettings_with_parsed await_call version previous w :
  Versions.fromString version = Some previous ->
  migrateSettings_with await_call (Some version) w =
  try_catch (sequence_ (await_call <$> applicable previous))
            (fun ex => Logger_error ex "migrateSettings") w.
Proof.
  intros Hp. unfold migrateSettings_with, Versions_fromString.
  rewrite Hp, bind_run. cbn [mret M_ret].
  apply try_catch_ext. clear w. intros w.
  rewrite !when_sequence.
  unfold applicable, registry. cbn [flat_map fst snd].
  rewrite app_nil_r, !fmap_app.
  repeat (rewrite sequence_app; apply bind_ext; clear w; intros _ w).
  reflexivity.
Qed.

(** migrateSettings is [migrateSettings_with] at the calls of the source;
    and whatever the awaited calls do, it throws exactly when the marker is
    a string that [Versions.fromString] rejects; it then throws that
    exception and leaves the world as it found it. For every other marker
    it returns. *)
Theorem migrateSettings_throws_only_on_the_marker
    (await_call : rule -> M unit) (previousVersion : option string) (w : World) :
  migrateSettings = migrateSettings_with call /\
  ((exists ex w', migrateSettings_with await_call previousVersion w = Threw ex w')
   <->
   (exists version, previousVersion = Some version /\
                    Versions.fromString version = None)) /\
  (forall version,
     previousVersion = Some version ->
     Versions.fromString version = None ->
     migrateSettings_with await_call previousVersion w =
     Threw (ParseError version) w).
Proof.
  assert (Hthrow : forall version,
             previousVersion = Some version ->
             Versions.fromString version = None ->
             migrateSettings_with await_call previousVersion w =
             Threw (ParseError version) w).
  { intros version -> Hp. unfold migrateSettings_with, Versions_fromString.
    now rewrite Hp. }
  split; [reflexivity|]. split; [|exact Hthrow]. split.
  - intros (ex & w' & Hrun). destruct previousVersion as [version|].
    + exists version. split; [reflexivity|].
      destruct (Versions.fromString version) as [previous|] eqn:Hp;
        [|reflexivity].
      rewrite (migrateSettings_with_parsed _ _ _ _ Hp) in Hrun.
      unfold try_catch in Hrun.
      destruct (sequence_ _ w) as [[] w1|ex1 w1]; discriminate.
    + discriminate.
  - intros (version & Hv & Hp). eauto.
Qed.

Lemma sequence_returns_then_throws (l1 : list (M unit)) c l2 w w1 ex w2 :
  sequence_ l1 w = Returned tt w1 ->
  c w1 = Threw ex w2 ->
  sequence_ (l1 ++ c :: l2) w = Threw ex w2.
Proof.
  intros H1 Hc. rewrite sequence_app, bind_run, H1.
  now apply sequence_stops_at_throw.
Qed.

(** The [catch] of lines 232-234: when an awaited call throws, every call
    before it having returned, migrateSettings returns the world of the
    throw with that one error logged; the calls after it are not made. *)
Theorem migrateSettings_stops_at_the_first_throw
    (await_call : rule -> M unit) (version : string)
    (previous : Versions.Version) (w w1 w2 : World)
    (before : list rule) (r : rule) (after : list rule) (ex : exn) :
  Versions.fromString version = Some previous ->
  applicable previous = before ++ r :: after ->
  sequence_ (await_call <$> before) w = Returned tt w1 ->
  await_call r w1 = Threw ex w2 ->
  migrateSettings_with await_call (Some version) w =
  Returned tt (mkWorld (settings w2) (globalState w2) (enabledContext w2)
                       (log w2 ++ [LoggedError ex "migrateSettings"])
                       (gitNotFoundShown w2) (invocations w2) (writes w2)).
Proof.
  intros Hp Happ Hbefore Hr.
  rewrite (migrateSettings_with_parsed _ _ _ _ Hp), Happ, fmap_app, fmap_cons.
  rewrite (try_catch_threw _ _ w ex w2); [reflexivity|].
  now apply (sequence_returns_then_throws _ _ _ _ w1).
Qed.

(* ===================================================================== *)
(** ** activate: the paths the claims do not follow *)
(* ===================================================================== *)

(** When [GitService.initialize] throws (lines 40-47) the error message
    box is shown exactly when the message of the error contains
    ['Unable to find git']; either way the settings are those the
    migration produced. *)
Theorem git_not_found_message (a : Activation) (w : World) (message : string) :
  gitEnabled a = true ->
  marker_readable w ->
  gitInitialize a = Some message ->
  exists w',
    activate a w = Returned tt w' /\
    gitNotFoundShown w' =
      gitNotFoundShown w || includes "Unable to find git" message /\
    settings w' = apply_rules (rules_for (globalState w)) (settings w).
Proof.
  intros He Hm Hg.
  rewrite activate_enabled, bind_run, migrateSettings_readable by assumption.
  destruct (host_state_after_calls (rules_for (globalState w)) w)
    as (_ & _ & Hshown).
  rewrite <- Hshown, <- settings_after_calls.
  generalize (after_calls (rules_for (globalState w)) w). intros w1.
  unfold activate_rest, GitService_initialize. rewrite Hg.
  run_host. destruct (includes _ message);
    (eexists; split; [reflexivity|]; cbn; split; [|reflexivity]).
  - now rewrite orb_true_r.
  - now rewrite orb_false_r.
Qed.

(* ===================================================================== *)
(** ** showWelcomePage *)
(* ===================================================================== *)

(** Whether it returns or throws, showWelcomePage writes neither a setting
    nor the marker and logs at most one line; the world it leaves is the
    one its two log lines alone produce, which is all [activate], where
    the call is not awaited, sees of it. *)
Theorem showWelcomePage_only_logs (showWhatsNew : bool) (version : string)
    (previousVersion : option string) (w : World) :
  let w' :=
    world_of (showWelcomePage_full showWhatsNew version previousVersion w) in
  w' = world_of (showWelcomePage version previousVersion w) /\
  settings w' = settings w /\
  globalState w' = globalState w /\
  enabledContext w' = enabledContext w /\
  (log w' = log w \/ exists line, log w' = log w ++ [line]).
Proof.
  unfold showWelcomePage_full, showWelcomePage.
  destruct previousVersion as [previous|];
    [|cbn; repeat split; right; eauto].
  destruct (String.eqb previous version); cbn [negb].
  - run_host. destruct showWhatsNew; cbn; repeat split; now left.
  - unfold Versions_fromString. run_host.
    destruct (Versions.fromString previous) as [v|];
      [|cbn; repeat split; right; eauto].
    cbn. destruct (_ =? 0); [cbn; repeat split; right; eauto|].
    destruct showWhatsNew; cbn; repeat split; right; eauto.
Qed.

(** Of the calls showWelcomePage makes itself, only the parse of line 258
    can throw, on a previous version that differs from the running one and
    does not parse. With the marker migrateSettings has accepted it
    returns. *)
Theorem showWelcomePage_returns_on_a_readable_marker (showWhatsNew : bool)
    (version : string) (w : World) :
  marker_readable w ->
  exists opened w',
    showWelcomePage_full showWhatsNew version (globalState w) w =
    Returned opened w'.
Proof.
  unfold marker_readable, showWelcomePage_full.
  destruct (globalState w) as [previous|]; [|intros _; run_host; eauto].
  intros [v Hv]. unfold Versions_fromString. rewrite Hv.
  destruct (String.eqb previous version); cbn [negb]; run_host.
  - destruct showWhatsNew; cbn; eauto.
  - destruct (_ =? 0); [eauto|]. destruct showWhatsNew; cbn; eauto.
Qed.

Lemma js_strict_eq_refl a : js_strict_eq a a = true.
Proof. destruct a; [apply String.eqb_refl | reflexivity]. Qed.

Lemma showWelcomePage_full_same (showWhatsNew : bool) (version : string)
    (w : World) :
  showWelcomePage_full showWhatsNew version (Some version) w =
  Returned false w.
Proof.
  unfold showWelcomePage_full. rewrite String.eqb_refl. cbn [negb].
  run_host. destruct showWhatsNew; cbn [negb]; [|reflexivity].
  unfold same_or_downgrade. now rewrite !js_strict_eq_refl.
Qed.

(** When the stored version is the running one, nothing is logged, nothing
    is parsed and no page is opened, whatever the option says and whatever
    the string is: a marker that does not parse passes here. *)
Theorem showWelcomePage_same_version (showWhatsNew : bool) (version : string)
    (w : World) :
  showWelcomePage_full showWhatsNew version (Some version) w =
    Returned false w /\
  showWelcomePage version (Some version) w = Returned tt w.
Proof.
  split; [apply showWelcomePage_full_same|].
  unfold showWelcomePage. now rewrite String.eqb_refl.
Qed.

(** With [showWhatsNewAfterUpgrades] off, a change of version opens the
    page exactly when the previous version compares equal to 8.0.0. *)
Theorem showWelcomePage_option_off (version previous : string)
    (v : Versions.Version) (w : World) :
  previous <> version ->
  Versions.fromString previous = Some v ->
  exists w',
    showWelcomePage_full false version (Some previous) w =
    Returned (Versions.compare v (Versions.from 8 0 0 None) =? 0) w' /\
    log w' = log w ++ [UpgradedFrom previous version].
Proof.
  intros Hne Hp. unfold showWelcomePage_full, Versions_fromString.
  apply String.eqb_neq in Hne. rewrite Hne, Hp. cbn [negb]. run_host.
  destruct (_ =? 0); eexists; split; reflexivity.
Qed.

(** An upgrade from 8.0.0 opens the page even with the option off and
    even to a version that the downgrade test would turn down. *)
Theorem showWelcomePage_from_8_0_0 (showWhatsNew : bool)
    (version previous : string) (v : Versions.Version) (w : World) :
  previous <> version ->
  Versions.fromString previous = Some v ->
  Versions.compare v (Versions.from 8 0 0 None) = 0 ->
  exists w',
    showWelcomePage_full showWhatsNew version (Some previous) w =
    Returned true w'.
Proof.
  intros Hne Hp Hc. unfold showWelcomePage_full, Versions_fromString.
  apply String.eqb_neq in Hne. rewrite Hne, Hp. cbn [negb]. run_host.
  rewrite Hc. cbn. eauto.
Qed.

Lemma string_compare_refl s : String.compare s s = Eq.
Proof.
  pose proof (String.compare_antisym s s) as H.
  destruct (String.compare s s); [reflexivity | |]; cbn in H; discriminate.
Qed.

Lemma string_order_cases a b :
  (String.eqb a b = true /\ String.ltb a b = false /\ String.ltb b a = false) \/
  (String.eqb a b = false /\ String.ltb a b = true /\ String.ltb b a = false) \/
  (String.eqb a b = false /\ String.ltb a b = false /\ String.ltb b a = true).
Proof.
  unfold String.ltb. rewrite (String.compare_antisym b a).
  destruct (String.compare a b) eqn:E; cbn.
  - left. apply String.compare_eq_iff in E. subst.
    now rewrite String.eqb_refl.
  - right; left. split; [|now split]. apply String.eqb_neq. intros ->.
    rewrite string_compare_refl in E. discriminate.
  - right; right. split; [|now split]. apply String.eqb_neq. intros ->.
    rewrite string_compare_refl in E. discriminate.
Qed.

(** Lines 264-273. With the option on, after a change from a version other
    than 8.0.0, the page is opened exactly when the pair (major, minor) of
    the running version is above that of the previous one, the segments
    being compared as strings: 10 is below 9. *)
Theorem showWelcomePage_compares_segments_as_strings
    (version previous : string) (v : Versions.Version) (w : World)
    (major minor prevMajor prevMinor : string) (rest prevRest : list string) :
  previous <> version ->
  Versions.fromString previous = Some v ->
  Versions.compare v (Versions.from 8 0 0 None) <> 0 ->
  split_on "." version = major :: minor :: rest ->
  split_on "." previous = prevMajor :: prevMinor :: prevRest ->
  exists w',
    showWelcomePage_full true version (Some previous) w =
    Returned (String.ltb prevMajor major ||
              (String.eqb major prevMajor && String.ltb prevMinor minor)) w'.
Proof.
  intros Hne Hp Hc Hs Hs'. unfold showWelcomePage_full, Versions_fromString.
  apply String.eqb_neq in Hne. rewrite Hne, Hp. cbn [negb]. run_host.
  apply Z.eqb_neq in Hc. rewrite Hc. cbn [negb].
  eexists. f_equal.
  unfold same_or_downgrade. rewrite Hs, Hs'. cbn.
  destruct (string_order_cases major prevMajor) as [(->&->&->)|[(->&->&->)|(->&->&->)]];
    destruct (string_order_cases minor prevMinor) as [(->&->&->)|[(->&->&->)|(->&->&->)]];
    reflexivity.
Qed.

(* ===================================================================== *)
(** ** The run as a whole *)
(* ===================================================================== *)

Lemma tag_below_rc p :
  (Versions.of_comparison (String.compare p "beta2") =? 1) = false ->
  (Versions.of_comparison (String.compare p "rc") =? 1) = false.
Proof.
  destruct p as [|[[] [] [] [] [] [] [] []] p]; cbn; intros H;
    try reflexivity; try discriminate H.
Qed.

(** A version let in by the guard of a block is let in by the guards of
    the blocks after it. *)
Lemma guard_chain previous :
  (not_above previous (Versions.from 7 5 10 None) = true ->
   not_above previous (Versions.from 8 0 0 (Some "beta2")) = true) /\
  (not_above previous (Versions.from 8 0 0 (Some "beta2")) = true ->
   not_above previous (Versions.from 8 0 0 (Some "rc")) = true) /\
  (not_above previous (Versions.from 8 0 0 (Some "rc")) = true ->
   not_above previous (Versions.from 8 0 0 None) = true) /\
  (not_above previous (Versions.from 8 0 0 None) = true ->
   not_above previous (Versions.from 8 0 2 None) = true).
Proof.
  destruct previous as [ma mi pa pr].
  unfold not_above, Versions.compare, Versions.from.
  cbn [Versions.major Versions.minor Versions.patch Versions.pre].
  repeat split.
  - destruct (N.compare_spec ma 7), (N.compare_spec ma 8); try lia;
      try (intros; reflexivity); try discriminate.
  - destruct (N.compare_spec ma 8); try (intros; assumption).
    destruct (N.compare_spec mi 0); try (intros; assumption).
    destruct (N.compare_spec pa 0); try (intros; assumption).
    destruct pr as [p|]; [|intros; assumption].
    intros Hb. apply negb_true_iff in Hb. apply negb_true_iff.
    now apply tag_below_rc.
  - destruct (N.compare_spec ma 8); try (intros; assumption).
    destruct (N.compare_spec mi 0); try (intros; assumption).
    destruct (N.compare_spec pa 0); try (intros; assumption).
    destruct pr as [p|]; [reflexivity | discriminate].
  - destruct (N.compare_spec ma 8); try (intros; assumption).
    destruct (N.compare_spec mi 0); try (intros; assumption).
    destruct (N.compare_spec pa 0), (N.compare_spec pa 2); try lia;
      try (intros; reflexivity); try discriminate.
Qed.

Lemma guards_form_a_tail previous :
  exists n : nat, applicable previous = flat_map snd (drop n registry).
Proof.
  rewrite applicable_guarded.
  destruct (guard_chain previous) as (H1 & H2 & H3 & H4).
  destruct (not_above previous (Versions.from 8 0 2 None));
    [|destruct (not_above previous (Versions.from 8 0 0 None));
        [now discriminate H4|];
      destruct (not_above previous (Versions.from 8 0 0 (Some "rc")));
        [now discriminate H3|];
      destruct (not_above previous (Versions.from 8 0 0 (Some "beta2")));
        [now discriminate H2|];
      destruct (not_above previous (Versions.from 7 5 10 None));
        [now discriminate H1|];
      exists 5%nat; reflexivity].
  destruct (not_above previous (Versions.from 8 0 0 None));
    [|destruct (not_above previous (Versions.from 8 0 0 (Some "rc")));
        [now discriminate H3|];
      destruct (not_above previous (Versions.from 8 0 0 (Some "beta2")));
        [now discriminate H2|];
      destruct (not_above previous (Versions.from 7 5 10 None));
        [now discriminate H1|];
      exists 4%nat; reflexivity].
  destruct (not_above previous (Versions.from 8 0 0 (Some "rc")));
    [|destruct (not_above previous (Versions.from 8 0 0 (Some "beta2")));
        [now discriminate H2|];
      destruct (not_above previous (Versions.from 7 5 10 None));
        [now discriminate H1|];
      exists 3%nat; reflexivity].
  destruct (not_above previous (Versions.from 8 0 0 (Some "beta2")));
    [|destruct (not_above previous (Versions.from 7 5 10 None));
        [now discriminate H1|];
      exists 2%nat; reflexivity].
  destruct (not_above previous (Versions.from 7 5 10 None));
    [exists 0%nat | exists 1%nat]; reflexivity.
Qed.

(** The five guards are nested: the blocks migrateSettings runs for a
    marker are always the last [5 - n] of the five, for some [n]; a block
    never runs without all the blocks after it. *)
Theorem blocks_run_are_a_tail (version : string)
    (previous : Versions.Version) (w : World) :
  Versions.fromString version = Some previous ->
  exists (n : nat) (w' : World),
    migrateSettings (Some version) w = Returned tt w' /\
    invocations w' =
      invocations w ++ (invocation_of <$> flat_map snd (drop n registry)) /\
    settings w' = apply_rules (flat_map snd (drop n registry)) (settings w).
Proof.
  intros Hp. destruct (guards_form_a_tail previous) as [n Hn].
  exists n, (after_calls (applicable previous) w). split; [|split].
  - now apply migrateSettings_parsed.
  - now rewrite invocations_after_calls, Hn.
  - now rewrite settings_after_calls, Hn.
Qed.

(** A marker above 8.0.2 passes no guard: migrateSettings returns without
    a call, a write or a log line. *)
Theorem up_to_date_marker_migrates_nothing (version : string)
    (previous : Versions.Version) (w : World) :
  Versions.fromString version = Some previous ->
  Versions.compare previous (Versions.from 8 0 2 None) = 1 ->
  migrateSettings (Some version) w = Returned tt w.
Proof.
  intros Hp Hc. rewrite (migrateSettings_parsed _ _ _ Hp).
  rewrite applicable_guarded.
  destruct (guard_chain previous) as (H1 & H2 & H3 & H4).
  assert (H5 : not_above previous (Versions.from 8 0 2 None) = false)
    by (unfold not_above; now rewrite Hc).
  rewrite H5 in *.
  destruct (not_above previous (Versions.from 8 0 0 None));
    [now discriminate H4|].
  destruct (not_above previous (Versions.from 8 0 0 (Some "rc")));
    [now discriminate H3|].
  destruct (not_above previous (Versions.from 8 0 0 (Some "beta2")));
    [now discriminate H2|].
  destruct (not_above previous (Versions.from 7 5 10 None));
    [now discriminate H1|].
  reflexivity.
Qed.

(** A key that no call names as its destination holds after the run what
    it held before; and the source key of every call that moves a setting
    to another key is such a key, [debug] apart, so the legacy settings
    are left in place with their values. *)
Theorem run_writes_only_to_destinations (version : string)
    (previous : Versions.Version) (w : World) :
  Versions.fromString version = Some previous ->
  exists w',
    migrateSettings (Some version) w = Returned tt w' /\
    (forall k, k ∉ destinations -> settings w' !! k = settings w !! k) /\
    (forall r, r ∈ all_rules -> sourceKey r <> destinationKey r ->
               sourceKey r <> "debug" ->
               settings w' !! sourceKey r = settings w !! sourceKey r).
Proof.
  intros Hp. exists (after_calls (applicable previous) w).
  split; [now apply migrateSettings_parsed|].
  assert (Hframe : forall k, k ∉ destinations ->
            settings (after_calls (applicable previous) w) !! k =
            settings w !! k).
  { intros k Hk. rewrite settings_after_calls, applicable_guarded.
    now apply apply_rules_untouched, untouched_guarded. }
  split; [exact Hframe|].
  intros r Hr Hne Hdebug. apply Hframe.
  assert (Hall : forallb (fun r =>
            String.eqb (sourceKey r) (destinationKey r) ||
            String.eqb (sourceKey r) "debug" ||
            negb (existsb (String.eqb (sourceKey r)) destinations))
            all_rules = true) by (vm_compute; reflexivity).
  rewrite forallb_forall in Hall. apply list_elem_of_In in Hr.
  specialize (Hall r Hr).
  apply orb_true_iff in Hall as [Heq|Hnot];
    [apply orb_true_iff in Heq as [Heq|Heq]|].
  - apply String.eqb_eq in Heq. contradiction.
  - apply String.eqb_eq in Heq. contradiction.
  - apply negb_true_iff in Hnot. intros Hin.
    apply list_elem_of_In in Hin.
    assert (existsb (String.eqb (sourceKey r)) destinations = true).
    { apply existsb_exists. exists (sourceKey r).
      split; [assumption | apply String.eqb_refl]. }
    congruence.
Qed.

(** Lines 224-230. After a run from a version at or below 8.0.2 the
    [keymap] setting is always explicitly set: to [KeyMap.Alternate] when
    it was unset or ['standard'], to what it held otherwise. *)
Theorem keymap_is_set_after_the_run (version : string)
    (previous : Versions.Version) (w : World) :
  Versions.fromString version = Some previous ->
  Versions.compare previous (Versions.from 8 0 2 None) <= 0 ->
  exists w',
    migrateSettings (Some version) w = Returned tt w' /\
    settings w' !! "keymap" =
      Some (match settings w !! "keymap" with
            | Some v => if strict_eq_str v "standard" then KeyMap_Alternate
                        else v
            | None => KeyMap_Alternate
            end).
Proof.
  intros Hp Hc. exists (after_calls (applicable previous) w).
  split; [now apply migrateSettings_parsed|].
  rewrite settings_after_calls, applicable_guarded.
  apply not_above_le in Hc. rewrite Hc.
  rewrite lookup_guarded. simpl_guarded.
  generalize (settings w !! "keymap"). intros x. eval_key.
  destruct x as [v|]; [|reflexivity].
  now destruct (strict_eq_str v "standard").
Qed.

(** Lines 138-143. After a run from a version at or below 8.0.0-beta2 the
    [debug] setting is unset, whatever it held. *)
Theorem debug_is_unset_after_the_run (version : string)
    (previous : Versions.Version) (w : World) :
  Versions.fromString version = Some previous ->
  Versions.compare previous (Versions.from 8 0 0 (Some "beta2")) <= 0 ->
  exists w',
    migrateSettings (Some version) w = Returned tt w' /\
    settings w' !! "debug" = None.
Proof.
  intros Hp Hc. exists (after_calls (applicable previous) w).
  split; [now apply migrateSettings_parsed|].
  rewrite settings_after_calls, applicable_guarded.
  apply not_above_le in Hc. rewrite Hc.
  apply lookup_debug_after.
Qed.

(** Key by key: once the 7.5.10 block has run, the 8.0.0 block finds every
    destination it could fill already set, or its transform throwing as it
    did before. *)
Lemma backfill_fold b2 b3 b5 (env : string -> option value) k x :
  k ∈ destinations ->
  key_fold (guarded true b2 b3 true b5) env k x =
  key_fold (guarded true b2 b3 false b5) env k x.
Proof.
  intros Hk.
  apply elem_of_remove_dups in Hk. vm_compute in Hk.
  repeat (apply elem_of_cons in Hk as [->|Hk]);
    [..|now apply elem_of_nil in Hk].
  all: simpl_guarded; eval_key.
  all: try reflexivity.
  all: break_key env; try reflexivity; try congruence.
  all: exfalso; eapply overviewRulerToOverview_defined; eassumption.
Qed.

(** A marker at or below 7.5.10 passes all five guards, and the settings
    migrateSettings leaves are those the four other blocks produce: after
    the 7.5.10 block the [migrateIfMissing] calls of the 8.0.0 block
    (lines 169-222) change nothing. *)
Theorem backfill_changes_nothing_after_7_5_10 (version : string)
    (previous : Versions.Version) (w : World) :
  Versions.fromString version = Some previous ->
  Versions.compare previous (Versions.from 7 5 10 None) <= 0 ->
  exists w',
    migrateSettings (Some version) w = Returned tt w' /\
    invocations w' = invocations w ++ (invocation_of <$> all_rules) /\
    settings w' =
      apply_rules (batch_7_5_10 ++ batch_8_0_0_beta2 ++ batch_8_0_0_rc ++
                   batch_8_0_2) (settings w).
Proof.
  intros Hp Hc. exists (after_calls (applicable previous) w).
  split; [now apply migrateSettings_parsed|].
  rewrite invocations_after_calls, settings_after_calls, applicable_guarded.
  destruct (guard_chain previous) as (H1 & H2 & H3 & H4).
  apply not_above_le in Hc.
  rewrite (H4 (H3 (H2 (H1 Hc)))), (H3 (H2 (H1 Hc))), (H2 (H1 Hc)), (H1 Hc), Hc.
  split.
  - do 2 f_equal.
  - change (batch_7_5_10 ++ batch_8_0_0_beta2 ++ batch_8_0_0_rc ++ batch_8_0_2)
      with (guarded true true true false true).
    apply map_eq. intros k. rewrite !lookup_guarded.
    destruct (decide (k ∈ destinations)) as [Hk|Hk].
    + now apply backfill_fold.
    + now rewrite !key_fold_untouched by (now apply untouched_guarded).
Qed.

(* ===================================================================== *)
(** ** activate as a whole *)
(* ===================================================================== *)

Lemma activate_readable a w :
  gitEnabled a = true ->
  marker_readable w ->
  activate a w =
  activate_rest a (globalState w)
                (after_calls (rules_for (globalState w)) w).
Proof.
  intros He Hm.
  now rewrite activate_enabled, bind_run, migrateSettings_readable.
Qed.

Lemma marker_readable_or_not w :
  marker_readable w \/
  exists version,
    globalState w = Some version /\ Versions.fromString version = None.
Proof.
  unfold marker_readable. destruct (globalState w) as [version|]; [|now left].
  destruct (Versions.fromString version) eqn:Hp; [left; eauto | right; eauto].
Qed.

Lemma activate_rest_returns a previousVersion w :
  exists w', activate_rest a previousVersion w = Returned tt w' /\
    (enabledContext w' = enabledContext w \/ enabledContext w' = Some false) /\
    (globalState w' = globalState w \/
     globalState w' = Some (gitlensVersion a)).
Proof.
  destruct (gitInitialize a) as [message|] eqn:Hg.
  - destruct (activate_rest_failed a previousVersion message w Hg)
      as (w' & Hrun & _ & Hm & He & _).
    exists w'. auto.
  - destruct (activate_rest_initialized a previousVersion w Hg)
      as (w' & Hrun & _ & Hm & He & _).
    exists w'. auto.
Qed.


(** [activate] never sets the enabled context to true and never stores a
    marker other than the running version: whatever path it takes, each of
    the two is as it was, or [false] and the running version. *)
Theorem activate_never_enables (a : Activation) (w : World) :
  let w' := world_of (activate a w) in
  (enabledContext w' = enabledContext w \/ enabledContext w' = Some false) /\
  (globalState w' = globalState w \/
   globalState w' = Some (gitlensVersion a)).
Proof.
  cbn zeta. destruct (gitEnabled a) eqn:He.
  - destruct (marker_readable_or_not w) as [Hm|(version & Hm & Hp)].
    + rewrite activate_readable by assumption.
      destruct (host_state_after_calls (rules_for (globalState w)) w)
        as (Hg & Hc & _).
      destruct (activate_rest_returns a (globalState w)
                  (after_calls (rules_for (globalState w)) w))
        as (w' & -> & H1 & H2).
      cbn [world_of]. rewrite Hg in H2. rewrite Hc in H1. auto.
    + rewrite (activate_unreadable a w version) by assumption.
      cbn. auto.
  - destruct (activate_disabled a w He) as (w' & -> & _ & Hm & Hc & _).
    cbn [world_of]. auto.
Qed.

(** Once [activate] has run to the end for a version, the next launch of
    the same version opens no welcome page and logs no upgrade, whatever
    [showWhatsNewAfterUpgrades] says. *)
Theorem welcome_page_not_repeated (a : Activation) (w w' : World)
    (showWhatsNew : bool) :
  gitEnabled a = true ->
  gitInitialize a = None ->
  activate a w = Returned tt w' ->
  globalState w' = Some (gitlensVersion a) /\
  showWelcomePage_full showWhatsNew (gitlensVersion a) (globalState w') w' =
  Returned false w'.
Proof.
  intros He Hg Hrun.
  assert (Hm : globalState w' = Some (gitlensVersion a)).
  { destruct (marker_readable_or_not w) as [Hm|(version & Hm & Hp)].
    - rewrite activate_readable in Hrun by assumption.
      destruct (activate_rest_initialized a (globalState w)
                  (after_calls (rules_for (globalState w)) w) Hg)
        as (w1 & H1 & _ & H2 & _).
      congruence.
    - rewrite (activate_unreadable a w version) in Hrun by assumption.
      discriminate. }
  split; [exact Hm|]. rewrite Hm. apply showWelcomePage_full_same.
Qed.

End Host.

(* ===================================================================== *)
(** ** The model on concrete inputs *)
(* ===================================================================== *)

Local Abbreviation migrate_on := (migrateSettings example_defaults example_Debug example_Alternate).
Local Abbreviation activate_on := (activate example_defaults example_Debug example_Alternate).
Local Abbreviation rules_of := (applicable example_Debug example_Alternate).
Local Abbreviation world_after := (after_calls example_defaults).

Example fromString_7_5_9 :
  Versions.fromString "7.5.9" = Some (Versions.from 7 5 9 None).
Proof. reflexivity. Qed.

Example fromString_beta2 :
  Versions.fromString "8.0.0-beta2" = Some (Versions.from 8 0 0 (Some "beta2")).
Proof. reflexivity. Qed.

Example fromString_latest : Versions.fromString "latest" = None.
Proof. reflexivity. Qed.

Example compare_prerelease_before_release :
  Versions.compare (Versions.from 8 0 0 (Some "rc")) (Versions.from 8 0 0 None) = -1.
Proof. reflexivity. Qed.

(** A first launch with git available records the running version and
    leaves the settings empty. *)
Lemma first_install_records_version :
  exists w',
    activate_on (mkActivation "8.0.2" true None)
                (mkWorld ∅ None None [] false [] []) = Returned tt w' /\
    settings w' = ∅ /\
    globalState w' = Some "8.0.2".
Proof.
  destruct (first_install_is_a_no_op example_defaults example_Debug
              example_Alternate (mkActivation "8.0.2" true None)
              (mkWorld ∅ None None [] false [] []) eq_refl)
    as (_ & w' & Hrun & Hs & _ & _ & _ & Hm).
  exists w'. split; [exact Hrun|]. split; [exact Hs|].
  exact (Hm eq_refl eq_refl).
Defined.

(** An upgrade from 7.5.9 with git available ends with 8.0.2 as marker. *)
Lemma upgrade_records_version :
  exists w',
    activate_on (mkActivation "8.0.2" true None)
                (mkWorld ∅ (Some "7.5.9") None [] false [] []) =
    Returned tt w' /\
    globalState w' = Some "8.0.2".
Proof.
  destruct (marker_written_after_initialization example_defaults
              example_Debug example_Alternate
              (mkActivation "8.0.2" true None)
              (mkWorld ∅ (Some "7.5.9") None [] false [] [])
              eq_refl (ex_intro _ (Versions.from 7 5 9 None) eq_refl) eq_refl)
    as (w' & Hrun & Hm & _).
  exists w'. split; [exact Hrun | exact Hm].
Defined.

(** Counterexample to claim C4: git is enabled, [GitService.initialize]
    throws, and startup ends with the old marker still in place. *)
Lemma marker_not_written_when_git_fails :
  let a := mkActivation "8.0.2" true (Some "Unable to find git") in
  let w := mkWorld ∅ (Some "7.5.9") None [] false [] [] in
  exists w',
    activate_on a w = Returned tt w' /\
    gitEnabled a = true /\
    globalState w' = Some "7.5.9" /\
    globalState w' <> Some (gitlensVersion a).
Proof.
  intros a w. eexists. split; [vm_compute; reflexivity|].
  repeat split. discriminate.
Qed.


(** From 8.0.0-rc the blocks of 8.0.0-rc, 8.0.0 and 8.0.2 run, and the two
    before them do not. *)
Lemma gating_from_8_0_0_rc :
  exists w',
    migrate_on (Some "8.0.0-rc") (mkWorld ∅ None None [] false [] []) =
    Returned tt w' /\
    invocations w' =
      invocation_of <$>
        (batch_8_0_0_rc ++ batch_8_0_0 ++ batch_8_0_2 example_Alternate).
Proof.
  destruct (batches_gated_in_ascending_order example_defaults example_Debug
              example_Alternate "8.0.0-rc" (Versions.from 8 0 0 (Some "rc"))
              (mkWorld ∅ None None [] false [] []) eq_refl)
    as ((w' & Hrun & Hi) & _).
  exists w'. split; [exact Hrun|]. rewrite Hi. reflexivity.
Defined.


(** Counterexample to claim C3: [debug] is the source of the two rules of
    the 8.0.0-beta2 block, it is set before the run, and the run removes
    it. *)
Lemma legacy_debug_is_removed :
  let w := mkWorld {[ "debug" := VBool true ]} (Some "7.5.9") None [] false [] [] in
  let r := migrate "debug" (configuration_name ["debug"]) (with_fn toUndefined) in
  exists w',
    migrate_on (Some "7.5.9") w = Returned tt w' /\
    r ∈ all_rules example_Debug example_Alternate /\
    is_Some (settings w !! sourceKey r) /\
    settings w' !! sourceKey r = None.
Proof.
  intros w r. exists (world_after (rules_of (Versions.from 7 5 9 None)) w).
  split; [now apply migrateSettings_parsed|].
  split; [|split].
  - apply list_elem_of_lookup. exists 31%nat. reflexivity.
  - eexists. vm_compute. reflexivity.
  - vm_compute. reflexivity.
Qed.

(** [blame.line.enabled], a source other than [debug], survives the run. *)
Lemma blame_line_enabled_stays_set :
  let w := mkWorld {[ "blame.line.enabled" := VBool true ]}
                   (Some "7.5.9") None [] false [] [] in
  is_Some (settings (world_after (rules_of (Versions.from 7 5 9 None)) w)
             !! "blame.line.enabled").
Proof.
  intros w.
  apply (sources_other_than_debug_stay_set example_defaults example_Debug
           example_Alternate (Some "7.5.9") w
           (world_after (rules_of (Versions.from 7 5 9 None)) w)
           (migrate "blame.line.enabled"
                    (configuration_name ["currentLine"; "enabled"]) no_options)).
  - now apply migrateSettings_parsed.
  - apply list_elem_of_lookup. exists 13%nat. reflexivity.
  - discriminate.
  - eexists. vm_compute. reflexivity.
Defined.

(** With [debug] set to [false] and no explicit [outputLevel], the run
    writes the registered default of [outputLevel]. *)
Lemma debug_false_reads_through :
  exists w',
    migrate_on (Some "7.5.9")
               (mkWorld {[ "debug" := VBool false ]} None None [] false [] []) =
    Returned tt w' /\
    settings w' !! "outputLevel" = Some (VStr "errors").
Proof.
  destruct (debug_maps_to_outputLevel example_defaults example_Debug
              example_Alternate "7.5.9" (Versions.from 7 5 9 None)
              (mkWorld {[ "debug" := VBool false ]} None None [] false [] [])
              false eq_refl)
    as (w' & Hrun & Hs).
  - vm_compute. discriminate.
  - vm_compute. reflexivity.
  - exists w'. split; [exact Hrun|]. exact Hs.
Defined.

(** Counterexample to claim C8: with ['overviewRuler'] twice under
    [blame.highlight.locations], the first run renames the first
    occurrence and the second run the other one. *)
Lemma second_run_renames_again :
  let w := mkWorld {[ "blame.highlight.locations" :=
                        VArr [VStr "overviewRuler"; VStr "overviewRuler"] ]}
                   (Some "7.5.9") None [] false [] [] in
  exists w1 w2,
    migrate_on (Some "7.5.9") w = Returned tt w1 /\
    migrate_on (Some "7.5.9") w1 = Returned tt w2 /\
    settings w1 !! "blame.highlight.locations" =
      Some (VArr [VStr "overview"; VStr "overviewRuler"]) /\
    settings w2 !! "blame.highlight.locations" =
      Some (VArr [VStr "overview"; VStr "overview"]) /\
    settings w2 <> settings w1.
Proof.
  intros w.
  exists (world_after (rules_of (Versions.from 7 5 9 None)) w).
  exists (world_after (rules_of (Versions.from 7 5 9 None))
            (world_after (rules_of (Versions.from 7 5 9 None)) w)).
  split; [now apply migrateSettings_parsed|].
  split; [now apply migrateSettings_parsed|].
  split; [vm_compute; reflexivity|].
  split; [vm_compute; reflexivity|].
  intros Heq.
  apply (f_equal (fun doc => doc !! "blame.highlight.locations")) in Heq.
  vm_compute in Heq. discriminate.
Qed.

(** With a single ['overviewRuler'] the first run renames it and the
    second run changes nothing. *)
Lemma second_run_after_single_rename :
  let w := mkWorld {[ "blame.highlight.locations" :=
                        VArr [VStr "overviewRuler"; VStr "line"] ]}
                   (Some "7.5.9") None [] false [] [] in
  let w1 := world_after (rules_of (Versions.from 7 5 9 None)) w in
  let w2 := world_after (rules_of (Versions.from 7 5 9 None)) w1 in
  settings w1 !! "blame.highlight.locations" =
    Some (VArr [VStr "overview"; VStr "line"]) /\
  settings w2 = settings w1.
Proof.
  intros w w1 w2. split; [vm_compute; reflexivity|].
  apply (second_run_changes_nothing_once_renamed example_defaults
           example_Debug example_Alternate (Some "7.5.9") w w1 w2).
  - now apply migrateSettings_parsed.
  - now apply migrateSettings_parsed.
  - intros _ key v [->| ->] Hv; vm_compute in Hv.
    + injection Hv as <-. right. reflexivity.
    + discriminate.
Defined.

(* ===================================================================== *)
(** ** The further properties on concrete inputs *)
(* ===================================================================== *)

(** A highlight-locations setting that holds a plain string without
    ['overviewRuler'] comes back from the rename as it is. *)
Lemma rename_returns_a_plain_string :
  overviewRulerToOverview example_defaults (VStr "gutter") =
  Ok (Some (VStr "gutter")).
Proof.
  destruct (rename_outside_arrays example_defaults (VStr "gutter"))
    as [_ [_ Hback]].
  - intros items. discriminate.
  - apply Hback. exists "gutter". split; reflexivity.
Defined.

(** One per-language entry without [customSymbols]: the transform returns
    one object, with [language] and [scopes] and nothing else. *)
Lemma scopesByLanguage_on_one_entry :
  let v := VArr [VObj [("language", VStr "typescript");
                       ("locations", VArr [VStr "document"])]] in
  exists result,
    scopesByLanguage example_defaults v = Ok result /\
    exists items scopes,
      v = VArr items /\ result = Some (VArr scopes) /\
      length scopes = length items /\
      Forall (fun scope =>
                (exists props, scope = VObj props) /\
                property_names scope ⊆ ["language"; "scopes"; "symbolScopes"])
             scopes.
Proof.
  intros v. eexists. split; [reflexivity|].
  apply (scopesByLanguage_shape example_defaults v). reflexivity.
Defined.

(** From 7.5.9, with a callee that throws on the second call: the first
    call is made, the error is logged once, and migrateSettings returns. *)
Lemma second_call_throws_first_is_kept :
  let await_call := fun r : rule =>
    if String.eqb (sourceKey r) "annotations.file.gutter.compact"
    then throw TypeError else call example_defaults r in
  exists w',
    migrateSettings_with example_Debug example_Alternate await_call
      (Some "7.5.9") (mkWorld ∅ (Some "7.5.9") None [] false [] []) =
    Returned tt w' /\
    log w' = [LoggedError TypeError "migrateSettings"] /\
    invocations w' = [Migrate "annotations.file.gutter.gravatars" "blame.avatars"].
Proof.
  intros await_call. eexists. split.
  - apply (migrateSettings_stops_at_the_first_throw example_Debug
             example_Alternate await_call "7.5.9" (Versions.from 7 5 9 None)
             (mkWorld ∅ (Some "7.5.9") None [] false [] [])
             (world_after
                [migrate "annotations.file.gutter.gravatars" "blame.avatars"
                         no_options]
                (mkWorld ∅ (Some "7.5.9") None [] false [] []))
             (world_after
                [migrate "annotations.file.gutter.gravatars" "blame.avatars"
                         no_options]
                (mkWorld ∅ (Some "7.5.9") None [] false [] []))
             [migrate "annotations.file.gutter.gravatars" "blame.avatars"
                      no_options]
             (migrate "annotations.file.gutter.compact" "blame.compact"
                      no_options)
             (drop 2 (rules_of (Versions.from 7 5 9 None)))
             TypeError);
      reflexivity.
  - split; reflexivity.
Defined.

(** Git is not found on an upgrade from 7.5.9: the error box is shown. *)
Lemma git_not_found_shows_the_box :
  exists w',
    activate_on (mkActivation "8.0.2" true (Some "Unable to find git"))
                (mkWorld ∅ (Some "7.5.9") None [] false [] []) =
    Returned tt w' /\
    gitNotFoundShown w' = true.
Proof.
  destruct (git_not_found_message example_defaults example_Debug
              example_Alternate
              (mkActivation "8.0.2" true (Some "Unable to find git"))
              (mkWorld ∅ (Some "7.5.9") None [] false [] [])
              "Unable to find git" eq_refl
              (ex_intro _ (Versions.from 7 5 9 None) eq_refl) eq_refl)
    as (w' & Hrun & Hshown & _).
  exists w'. split; [exact Hrun | exact Hshown].
Defined.

(** With the marker 7.5.9, showWelcomePage for 8.0.2 returns. *)
Lemma welcome_page_after_7_5_9_returns :
  exists opened w',
    showWelcomePage_full true "8.0.2" (Some "7.5.9")
      (mkWorld ∅ (Some "7.5.9") None [] false [] []) =
    Returned opened w'.
Proof.
  exact (showWelcomePage_returns_on_a_readable_marker true "8.0.2"
           (mkWorld ∅ (Some "7.5.9") None [] false [] [])
           (ex_intro _ (Versions.from 7 5 9 None) eq_refl)).
Defined.

(** Option off, 8.0.2 after 7.5.9: the upgrade is logged, no page. *)
Lemma option_off_upgrade_from_7_5_9 :
  exists w',
    showWelcomePage_full false "8.0.2" (Some "7.5.9")
      (mkWorld ∅ (Some "7.5.9") None [] false [] []) =
    Returned false w' /\
    log w' = [UpgradedFrom "7.5.9" "8.0.2"].
Proof.
  apply (showWelcomePage_option_off "8.0.2" "7.5.9" (Versions.from 7 5 9 None)
           (mkWorld ∅ (Some "7.5.9") None [] false [] [])).
  - discriminate.
  - reflexivity.
Defined.

(** Option off, 8.0.2 after 8.0.0: the page is opened all the same. *)
Lemma option_off_upgrade_from_8_0_0 :
  exists w',
    showWelcomePage_full false "8.0.2" (Some "8.0.0")
      (mkWorld ∅ (Some "8.0.0") None [] false [] []) =
    Returned true w'.
Proof.
  apply (showWelcomePage_from_8_0_0 false "8.0.2" "8.0.0"
           (Versions.from 8 0 0 None)
           (mkWorld ∅ (Some "8.0.0") None [] false [] [])).
  - discriminate.
  - reflexivity.
  - reflexivity.
Defined.

(** Option on, 10.0.0 after 9.1.0: as strings ['10'] is below ['9'], the
    upgrade is taken for a downgrade and no page is opened. *)
Lemma upgrade_9_to_10_opens_no_page :
  exists w',
    showWelcomePage_full true "10.0.0" (Some "9.1.0")
      (mkWorld ∅ (Some "9.1.0") None [] false [] []) =
    Returned false w'.
Proof.
  apply (showWelcomePage_compares_segments_as_strings "10.0.0" "9.1.0"
           (Versions.from 9 1 0 None)
           (mkWorld ∅ (Some "9.1.0") None [] false [] [])
           "10" "0" "9" "1" ["0"] ["0"]).
  - discriminate.
  - reflexivity.
  - discriminate.
  - reflexivity.
  - reflexivity.
Defined.

(** From 8.0.0-rc the blocks that run are the last three. *)
Lemma tail_from_8_0_0_rc :
  let w := mkWorld ∅ (Some "8.0.0-rc") None [] false [] [] in
  exists (n : nat) w',
    migrate_on (Some "8.0.0-rc") w = Returned tt w' /\
    invocations w' =
      invocations w ++
      (invocation_of <$>
       flat_map snd (drop n (registry example_Debug example_Alternate))) /\
    settings w' =
      apply_rules example_defaults
        (flat_map snd (drop n (registry example_Debug example_Alternate)))
        (settings w).
Proof.
  intros w.
  exact (blocks_run_are_a_tail example_defaults example_Debug
           example_Alternate "8.0.0-rc" (Versions.from 8 0 0 (Some "rc"))
           w eq_refl).
Defined.

(** From 8.0.3 nothing is migrated. *)
Lemma nothing_to_migrate_from_8_0_3 :
  migrate_on (Some "8.0.3")
    (mkWorld {[ "keymap" := VStr "standard" ]} (Some "8.0.3") None [] false [] []) =
  Returned tt
    (mkWorld {[ "keymap" := VStr "standard" ]} (Some "8.0.3") None [] false [] []).
Proof.
  exact (up_to_date_marker_migrates_nothing example_defaults example_Debug
           example_Alternate "8.0.3" (Versions.from 8 0 3 None)
           (mkWorld {[ "keymap" := VStr "standard" ]} (Some "8.0.3") None []
                    false [] [])
           eq_refl eq_refl).
Defined.

(** From 7.5.9 the legacy key [annotations.file.gutter.compact] keeps its
    value. *)
Lemma legacy_compact_keeps_its_value :
  exists w',
    migrate_on (Some "7.5.9")
      (mkWorld {[ "annotations.file.gutter.compact" := VBool true ]}
               (Some "7.5.9") None [] false [] []) =
    Returned tt w' /\
    settings w' !! "annotations.file.gutter.compact" = Some (VBool true).
Proof.
  destruct (run_writes_only_to_destinations example_defaults example_Debug
              example_Alternate "7.5.9" (Versions.from 7 5 9 None)
              (mkWorld {[ "annotations.file.gutter.compact" := VBool true ]}
                       (Some "7.5.9") None [] false [] [])
              eq_refl)
    as (w' & Hrun & Hframe & _).
  exists w'. split; [exact Hrun|].
  rewrite Hframe; [reflexivity|].
  intros Hin. apply list_elem_of_In in Hin.
  revert Hin. vm_compute. intuition discriminate.
Defined.

(** From 8.0.1 a ['standard'] keymap becomes the alternate one. *)
Lemma standard_keymap_becomes_alternate :
  exists w',
    migrate_on (Some "8.0.1")
      (mkWorld {[ "keymap" := VStr "standard" ]} (Some "8.0.1") None [] false
               [] []) =
    Returned tt w' /\
    settings w' !! "keymap" = Some example_Alternate.
Proof.
  destruct (keymap_is_set_after_the_run example_defaults example_Debug
              example_Alternate "8.0.1" (Versions.from 8 0 1 None)
              (mkWorld {[ "keymap" := VStr "standard" ]} (Some "8.0.1") None []
                       false [] []))
    as (w' & Hrun & Hkeymap).
  - reflexivity.
  - vm_compute. discriminate.
  - exists w'. split; [exact Hrun|]. rewrite Hkeymap. reflexivity.
Defined.

(** From 7.5.9 a [debug] setting, here [false], is gone after the run. *)
Lemma debug_false_is_removed :
  exists w',
    migrate_on (Some "7.5.9")
      (mkWorld {[ "debug" := VBool false ]} (Some "7.5.9") None [] false [] []) =
    Returned tt w' /\
    settings w' !! "debug" = None.
Proof.
  apply (debug_is_unset_after_the_run example_defaults example_Debug
           example_Alternate "7.5.9" (Versions.from 7 5 9 None)
           (mkWorld {[ "debug" := VBool false ]} (Some "7.5.9") None [] false
                    [] [])).
  - reflexivity.
  - vm_compute. discriminate.
Defined.

(** From 7.5.9 every call is made, and the settings are those of the run
    without the 8.0.0 block. *)
Lemma backfill_after_7_5_9 :
  let w := mkWorld {[ "annotations.file.gutter.compact" := VBool true ]}
                   (Some "7.5.9") None [] false [] [] in
  exists w',
    migrate_on (Some "7.5.9") w = Returned tt w' /\
    invocations w' =
      invocations w ++
      (invocation_of <$> all_rules example_Debug example_Alternate) /\
    settings w' =
      apply_rules example_defaults
        (batch_7_5_10 ++ batch_8_0_0_beta2 example_Debug ++ batch_8_0_0_rc ++
         batch_8_0_2 example_Alternate)
        (settings w).
Proof.
  intros w.
  refine (backfill_changes_nothing_after_7_5_10 example_defaults example_Debug
            example_Alternate "7.5.9" (Versions.from 7 5 9 None) w eq_refl _).
  vm_compute. discriminate.
Defined.

(** 8.0.2 activated after 7.5.9: at the next launch of 8.0.2 the welcome
    page stays closed. *)
Lemma second_launch_opens_no_page :
  let a := mkActivation "8.0.2" true None in
  let w' := world_of (activate_on a (mkWorld ∅ (Some "7.5.9") None [] false [] [])) in
  globalState w' = Some "8.0.2" /\
  showWelcomePage_full true "8.0.2" (globalState w') w' = Returned false w'.
Proof.
  intros a w'.
  apply (welcome_page_not_repeated example_defaults example_Debug
           example_Alternate a
           (mkWorld ∅ (Some "7.5.9") None [] false [] []) w' true).
  - reflexivity.
  - reflexivity.
  - vm_compute. reflexivity.
Defined.
